(** * CCA supply schedule: the schedule generator of [server.py]

    A shallow embedding of the two pure functions of the supply-schedule
    server, [calculate_block_durations] and [generate_schedule], and of the
    tool entry point [call_tool] that validates a request and reports errors.

    Python [int] is [Z]; Python [float] is the primitive binary64 [float];
    a raised exception is the [Raise] case of [result].  The C library's
    [pow], which CPython calls for [**] on floats, is not part of the
    repository: every function takes it as the parameter [libm_pow]. *)

From Stdlib Require Import ZArith List Lia Bool String Floats.
Import ListNotations.
Local Open Scope Z_scope.

(** ** Exceptions *)

Inductive exn : Type :=
| ZeroDivisionError
| OverflowError
| ValueError
| TypeError
| IndexError
| ValidationError.

Inductive result (A : Type) : Type :=
| Ok : A -> result A
| Raise : exn -> result A.

Arguments Ok {A} _.
Arguments Raise {A} _.

Definition bind {A B : Type} (r : result A) (k : A -> result B) : result B :=
  match r with
  | Ok a => k a
  | Raise e => Raise e
  end.

Notation "x <- c ;; k" := (bind c (fun x => k))
  (at level 61, c at next level, right associativity).

Definition fmap {A B : Type} (f : A -> B) (r : result A) : result B :=
  x <- r ;; Ok (f x).

(** A [for] loop whose body may raise: the state is threaded through the
    elements in order and the first exception ends the loop. *)
Fixpoint for_each {A S : Type} (body : S -> A -> result S) (l : list A) (s : S)
  : result S :=
  match l with
  | [] => Ok s
  | a :: l' => s' <- body s a ;; for_each body l' s'
  end.

(** [range(n)]: empty when [n <= 0]. *)
Definition range (n : Z) : list Z := map Z.of_nat (seq 0 (Z.to_nat n)).

Definition sum (l : list Z) : Z := fold_right Z.add 0 l.

(** ** Python's float operations on binary64 *)

Module PyFloat.

(** An integer as an exact, not yet rounded, binary number. *)
Definition exact (n : Z) : spec_float :=
  match n with
  | Z0 => S754_zero false
  | Zpos m => S754_finite false m 0
  | Zneg m => S754_finite true m 0
  end.

Definition checked (x : spec_float) : result float :=
  match x with
  | S754_infinity _ => Raise OverflowError
  | _ => Ok (SF2Prim x)
  end.

(** [float(n)]: the nearest binary64, ties to even; too large an integer
    raises [OverflowError]. *)
Definition of_int (n : Z) : result float :=
  checked (binary_normalize prec emax n 0 false).

(** [a / b] on two integers: the correctly rounded quotient. *)
Definition int_truediv (a b : Z) : result float :=
  if b =? 0 then Raise ZeroDivisionError
  else checked (SFdiv prec emax (exact a) (exact b)).

(** [x / y] on two floats. *)
Definition truediv (x y : float) : result float :=
  if (y =? 0)%float then Raise ZeroDivisionError else Ok (x / y)%float.

(** The nearest integer to [m / 2^k], ties to the even one. *)
Definition round_half_even (m k : Z) : Z :=
  let q := m / 2 ^ k in
  let r := m mod 2 ^ k in
  let h := 2 ^ (k - 1) in
  if r <? h then q
  else if h <? r then q + 1
  else if Z.even q then q else q + 1.

(** [round(x)] with one argument: an [int], ties to even. *)
Definition round (x : float) : result Z :=
  match Prim2SF x with
  | S754_nan => Raise ValueError
  | S754_infinity _ => Raise OverflowError
  | S754_zero _ => Ok 0
  | S754_finite s m e =>
      Ok (cond_Zopp s (if 0 <=? e then Zpos m * 2 ^ e
                       else round_half_even (Zpos m) (- e)))
  end.

Definition is_integer (x : float) : bool :=
  match Prim2SF x with
  | S754_zero _ => true
  | S754_finite _ m e => (0 <=? e) || (Zpos m mod 2 ^ (- e) =? 0)
  | _ => false
  end.

Definition is_odd_integer (x : float) : bool :=
  match Prim2SF x with
  | S754_finite _ m e =>
      if 0 <? e then false
      else (Zpos m mod 2 ^ (- e) =? 0) && Z.odd (Zpos m / 2 ^ (- e))
  | _ => false
  end.

Section Pow.
Variable libm_pow : float -> float -> float.

(** [v ** w] as CPython's [float_pow] computes it: the special cases are
    settled first and the rest is handed to the C library. A negative
    base with a fractional exponent gives a [complex], which none of the
    callers below can round or compare: it is the [TypeError] case. *)
Definition pow (v w : float) : result float :=
  if (w =? 0)%float then Ok 1%float
  else if is_nan v then Ok v
  else if is_nan w then Ok (if (v =? 1)%float then 1%float else w)
  else if is_infinity w then
    if (abs v =? 1)%float then Ok 1%float
    else if Bool.eqb (0 <? w)%float (1 <? abs v)%float then Ok (abs w)
    else Ok 0%float
  else if is_infinity v then
    if (0 <? w)%float
    then Ok (if is_odd_integer w then v else abs v)
    else Ok (if is_odd_integer w && get_sign v then neg_zero else 0%float)
  else if (v =? 0)%float then
    if (w <? 0)%float then Raise ZeroDivisionError
    else Ok (if is_odd_integer w then v else 0%float)
  else if (v <? 0)%float && negb (is_integer w) then Raise TypeError
  else
    let negate_result := (v <? 0)%float && is_odd_integer w in
    let iv := abs v in
    if (iv =? 1)%float
    then Ok (if negate_result then (-1)%float else 1%float)
    else
      let ix := libm_pow iv w in
      if is_infinity ix then Raise OverflowError
      else if is_nan ix then Raise ValueError
      else Ok (if negate_result then (- ix)%float else ix).
End Pow.

End PyFloat.

(** ** A reference [pow]

    The nearest binary64 to [x ^ y] for a finite [x > 0] and a finite [y]:
    an exact power for a small positive integer exponent, and
    [exp (y * ln x)] evaluated in fixed point with [bits] fractional bits
    otherwise.  It stands for the C library wherever a concrete run of the
    program is evaluated. *)

Module Libm.

Definition bits : Z := 192.

Definition fx_mul (a b : Z) : Z := Z.shiftr (a * b) bits.
Definition fx_div (a b : Z) : Z := Z.shiftl a bits / b.

(** [z + z^3/3 + z^5/5 + ...], [term] being the current odd power. *)
Fixpoint atanh_series (fuel : nat) (z2 term k acc : Z) : Z :=
  match fuel with
  | O => acc
  | S fuel' =>
      atanh_series fuel' z2 (fx_mul term z2) (k + 2) (acc + term / k)
  end.

Definition atanh (z : Z) : Z := atanh_series 70 (fx_mul z z) z 1 0.

(** [ln u] for [u] in [[1, 2]]: [2 atanh ((u - 1) / (u + 1))]. *)
Definition ln_mantissa (u : Z) : Z :=
  2 * atanh (fx_div (u - 2 ^ bits) (u + 2 ^ bits)).

Definition ln2 : Z := Eval vm_compute in ln_mantissa (2 * 2 ^ bits).

(** [1 + r + r^2/2! + ...] for [r] in [[0, ln 2)]. *)
Fixpoint exp_series (fuel : nat) (r term j acc : Z) : Z :=
  match fuel with
  | O => acc
  | S fuel' => exp_series fuel' r (fx_mul term r / j) (j + 1) (acc + term)
  end.

Definition exp_fraction (r : Z) : Z := exp_series 60 r (2 ^ bits) 1 0.

(** [ln (m * 2^e)] in fixed point. *)
Definition ln_pos (m : positive) (e : Z) : Z :=
  let d := Zdigits2 (Zpos m) in
  ln_mantissa (Zpos m * 2 ^ bits / 2 ^ (d - 1)) + (e + d - 1) * ln2.

Definition scale (a e : Z) : Z := if 0 <=? e then a * 2 ^ e else a / 2 ^ (- e).

Definition exp_log (mx : positive) (ex : Z) (sy : bool) (my : positive) (ey : Z)
  : spec_float :=
  let w := cond_Zopp sy (scale (ln_pos mx ex * Zpos my) ey) in
  let k := w / ln2 in
  if 1100 <? k then S754_infinity false
  else if k <? -1200 then S754_zero false
  else binary_normalize prec emax (exp_fraction (w - k * ln2)) (k - bits) false.

Definition small_integer (sy : bool) (my : positive) (ey : Z) : option Z :=
  if sy then None
  else if (0 <=? ey) && (ey <=? 6) && (Zpos my * 2 ^ ey <=? 64)
  then Some (Zpos my * 2 ^ ey)
  else if (ey <? 0) && (Zpos my mod 2 ^ (- ey) =? 0) && (Zpos my / 2 ^ (- ey) <=? 64)
  then Some (Zpos my / 2 ^ (- ey))
  else None.

Definition pow (x y : float) : float :=
  match Prim2SF x, Prim2SF y with
  | S754_finite false mx ex, S754_finite sy my ey =>
      SF2Prim
        match small_integer sy my ey with
        | Some n => binary_normalize prec emax (Zpos mx ^ n) (ex * n) false
        | None => exp_log mx ex sy my ey
        end
  | _, _ => nan
  end.

End Libm.

(** ** The module constants *)

(** Target total supply in mps units. *)
Definition TOTAL_TARGET : Z := 10000000.

(** Number of segments for the first 70% of supply. *)
Definition NUM_SEGMENTS : Z := 10.

(** Exponential growth factor: the binary64 nearest to 1.2. *)
Definition GROWTH_EXPONENT : float := 0x1.3333333333333p+0%float.

(** The front share: the binary64 nearest to 0.7. *)
Definition FRONT_SHARE : float := 0x1.6666666666666p-1%float.

(** One entry of the schedule, the dict [{"mps": _, "blockDelta": _}]. *)
Record Phase : Type := { mps : Z; blockDelta : Z }.

(** ** List cells addressed from the end *)

(** [l[-1]] as a value. *)
Definition get_last (l : list Z) : result Z :=
  match l with
  | [] => Raise IndexError
  | _ => Ok (last l 0)
  end.

(** [l[-1] = v]. *)
Definition set_last (l : list Z) (v : Z) : result (list Z) :=
  match l with
  | [] => Raise IndexError
  | _ => Ok (removelast l ++ [v])
  end.

(** ** The schedule generator *)

Section Schedule.

Variable libm_pow : float -> float -> float.

Local Notation "v ** w" := (PyFloat.pow libm_pow v w) (at level 30).

(** The float duration of segment [i], before rounding. *)
Definition raw_duration (b0 growth_factor : float) (i : Z) : result float :=
  fi <- PyFloat.of_int i ;;
  g <- growth_factor ** fi ;;
  Ok (b0 * g)%float.

(** The body of the loop over [range(num_segments)]. *)
Definition duration_body (b0 growth_factor : float) (durations : list Z) (i : Z)
  : result (list Z) :=
  duration <- raw_duration b0 growth_factor i ;;
  r <- PyFloat.round duration ;;
  let duration_int := Z.max 1 r in
  Ok (durations ++ [duration_int]).

Definition calculate_block_durations
    (total_blocks num_segments : Z) (growth_factor : float) : result (list Z) :=
  n <- PyFloat.of_int num_segments ;;
  gn <- growth_factor ** n ;;
  geometric_sum <- PyFloat.truediv (gn - 1)%float (growth_factor - 1)%float ;;
  tb <- PyFloat.of_int total_blocks ;;
  b0 <- PyFloat.truediv tb geometric_sum ;;
  durations <- for_each (duration_body b0 growth_factor) (range num_segments) [] ;;
  let actual_total := sum durations in
  if negb (actual_total =? total_blocks) then
    d <- get_last durations ;;
    durations <- set_last durations (d + (total_blocks - actual_total)) ;;
    d <- get_last durations ;;
    set_last durations (Z.max 1 d)
  else Ok durations.

(** The variables the loop of [generate_schedule] updates. *)
Record loop_state : Type :=
  { cumulative_blocks : Z; cumulative_tokens : Z; schedule : list Phase }.

(** The tokens of the segment from [start_block] to [end_block] on the
    cumulative curve, scaled to the front share of the supply. *)
Definition segment_tokens (blocks_for_segments start_block end_block : Z)
  : result float :=
  xs <- PyFloat.int_truediv start_block blocks_for_segments ;;
  start_pct <- xs ** GROWTH_EXPONENT ;;
  xe <- PyFloat.int_truediv end_block blocks_for_segments ;;
  end_pct <- xe ** GROWTH_EXPONENT ;;
  target <- PyFloat.of_int TOTAL_TARGET ;;
  let start_tokens := (start_pct * FRONT_SHARE * target)%float in
  let end_tokens := (end_pct * FRONT_SHARE * target)%float in
  Ok (end_tokens - start_tokens)%float.

(** The rate of a segment: tokens per block, at least 1 when the segment
    has tokens. *)
Definition segment_rate (tokens : float) (block_delta : Z) : result Z :=
  fd <- PyFloat.of_int block_delta ;;
  q <- PyFloat.truediv tokens fd ;;
  r <- PyFloat.round q ;;
  Ok (if (0 <? tokens)%float then Z.max 1 r else r).

(** The body of the loop over [block_durations]. *)
Definition segment_body (blocks_for_segments : Z) (st : loop_state) (block_delta : Z)
  : result loop_state :=
  let start_block := cumulative_blocks st in
  let end_block := cumulative_blocks st + block_delta in
  tokens <- segment_tokens blocks_for_segments start_block end_block ;;
  rate <- segment_rate tokens block_delta ;;
  Ok {| cumulative_blocks := cumulative_blocks st + block_delta;
        cumulative_tokens := cumulative_tokens st + rate * block_delta;
        schedule := schedule st ++ [{| mps := rate; blockDelta := block_delta |}] |}.

Definition generate_schedule (auction_blocks prebid_blocks : Z)
  : result (list Phase) :=
  let schedule0 :=
    if 0 <? prebid_blocks
    then [{| mps := 0; blockDelta := prebid_blocks |}]
    else [] in
  let blocks_for_segments := auction_blocks - 1 in
  block_durations <-
    calculate_block_durations blocks_for_segments NUM_SEGMENTS GROWTH_EXPONENT ;;
  st <- for_each (segment_body blocks_for_segments) block_durations
          {| cumulative_blocks := 0; cumulative_tokens := 0;
             schedule := schedule0 |} ;;
  let final_tokens := TOTAL_TARGET - cumulative_tokens st in
  Ok (schedule st ++ [{| mps := final_tokens; blockDelta := 1 |}]).

End Schedule.

(** ** The tool entry point *)

(** The [arguments] of a tool call, as far as the input model reads them:
    the two integer fields, each present or absent. *)
Record arguments : Type :=
  { arg_auction_blocks : option Z; arg_prebid_blocks : option Z }.

(** The validated input, [GenerateScheduleInput]. *)
Record GenerateScheduleInput : Type :=
  { auction_blocks : Z; prebid_blocks : Z }.

(** The input model built from the unpacked [arguments]: [auction_blocks] is required and
    [gt=0]; [prebid_blocks] defaults to 0 and is [ge=0]. *)
Definition validate (a : arguments) : result GenerateScheduleInput :=
  match arg_auction_blocks a with
  | None => Raise ValidationError
  | Some ab =>
      if 0 <? ab then
        let pb := match arg_prebid_blocks a with Some pb => pb | None => 0 end in
        if 0 <=? pb
        then Ok {| auction_blocks := ab; prebid_blocks := pb |}
        else Raise ValidationError
      else Raise ValidationError
  end.

Record summary : Type :=
  { total_mps : Z;
    target_mps : Z;
    final_block_mps : Z;
    final_block_percentage : float;
    num_segments : Z;
    growth_exponent : float }.

Record output : Type :=
  { out_schedule : list Phase;
    out_auction_blocks : Z;
    out_prebid_blocks : Z;
    total_phases : Z;
    out_summary : summary }.

(** What [call_tool] returns: the formatted output, or the error payload
    built by its [except] clause. *)
Inductive response : Type :=
| Success : output -> response
| Failure : exn -> response.

(** [schedule[-1]["mps"]]. *)
Definition last_mps (schedule : list Phase) : result Z :=
  match schedule with
  | [] => Raise IndexError
  | p :: rest => Ok (mps (last rest p))
  end.

(** [round(x, 2)]: the binary64 nearest to the two-decimal number nearest to
    [x], ties to even. *)
Definition round2 (x : float) : result float :=
  match Prim2SF x with
  | S754_finite s m e =>
      let hundredths :=
        if 0 <=? e then 100 * Zpos m * 2 ^ e
        else PyFloat.round_half_even (100 * Zpos m) (- e) in
      if hundredths =? 0 then Ok (if s then neg_zero else 0%float)
      else PyFloat.int_truediv (cond_Zopp s hundredths) 100
  | _ => Ok x
  end.

Section Tool.

Variable libm_pow : float -> float -> float.

(** The body of the [try] block. *)
Definition handle (args : arguments) : result output :=
  input_data <- validate args ;;
  schedule <- generate_schedule libm_pow
                (auction_blocks input_data) (prebid_blocks input_data) ;;
  let total := sum (map (fun item => mps item * blockDelta item) schedule) in
  final <- last_mps schedule ;;
  ratio <- PyFloat.int_truediv final TOTAL_TARGET ;;
  hundred <- PyFloat.of_int 100 ;;
  let percentage := (ratio * hundred)%float in
  shown <- round2 percentage ;;
  Ok {| out_schedule := schedule;
        out_auction_blocks := auction_blocks input_data;
        out_prebid_blocks := prebid_blocks input_data;
        total_phases := Z.of_nat (List.length schedule);
        out_summary :=
          {| total_mps := total;
             target_mps := TOTAL_TARGET;
             final_block_mps := final;
             final_block_percentage := shown;
             num_segments := NUM_SEGMENTS;
             growth_exponent := GROWTH_EXPONENT |} |}.

(** An unknown tool name raises before the [try]; inside it every
    exception becomes the error payload. *)
Definition call_tool (name : string) (args : arguments) : result response :=
  if negb (String.eqb name "generate_supply_schedule") then Raise ValueError
  else
    match handle args with
    | Ok out => Ok (Success out)
    | Raise e => Ok (Failure e)
    end.

End Tool.

(** A request the spec calls valid. *)
Definition valid_request (auction_blocks prebid_blocks : Z) : Prop :=
  1 <= auction_blocks /\ 0 <= prebid_blocks.

Definition total_allocation (schedule : list Phase) : Z :=
  sum (map (fun item => mps item * blockDelta item) schedule).

Definition total_blocks_of (schedule : list Phase) : Z :=
  sum (map blockDelta schedule).

(** ** The growth factors of the planner *)

(** [GROWTH_EXPONENT ** i], the factor of segment [i]. *)
Definition growth_power (pow : float -> float -> float) (i : Z) : result float :=
  fi <- PyFloat.of_int i ;;
  PyFloat.pow pow GROWTH_EXPONENT fi.

(** The factors of segments [i] and [i + 1] are positive and in order. *)
Definition growth_step (pow : float -> float -> float) (i : Z) : bool :=
  match growth_power pow i, growth_power pow (i + 1) with
  | Ok a, Ok b => ((0 <? a) && (a <=? b))%float
  | _, _ => false
  end.

(** The factors of the uncorrected segments are positive and
    non-decreasing. *)
Definition nondecreasing_powers (pow : float -> float -> float) : bool :=
  forallb (growth_step pow) (range (NUM_SEGMENTS - 2)).

(** * Properties of the schedule generator *)

Lemma TOTAL_TARGET_value : TOTAL_TARGET = 10000000.
Proof. reflexivity. Qed.

(** The proofs below treat the target as a symbol. *)
Global Opaque TOTAL_TARGET.

(** ** The error monad and the loops *)

Lemma bind_Ok {A B : Type} (r : result A) (k : A -> result B) (b : B) :
  bind r k = Ok b -> exists a, r = Ok a /\ k a = Ok b.
Proof.
  destruct r as [a|e]; simpl; intros H; [eauto | discriminate].
Qed.

(** Splits a successful sequence of binds into its successful steps. *)
Ltac bind_inv H :=
  let x := fresh "x" in
  let Hx := fresh "E" in
  apply bind_Ok in H; destruct H as (x & Hx & H).

Lemma Ok_inj {A : Type} (a b : A) : Ok a = Ok b -> a = b.
Proof.
  intros H.
  exact (f_equal (fun r => match r with Ok v => v | Raise _ => a end) H).
Qed.

Ltac ok_inv H := apply Ok_inj in H; try subst.

Lemma for_each_ext {A S : Type} (f g : S -> A -> result S) (l : list A) :
  (forall s a, f s a = g s a) -> forall s, for_each f l s = for_each g l s.
Proof.
  intros Hfg; induction l as [|a l IH]; intros s; simpl; [reflexivity|].
  rewrite Hfg. destruct (g s a); simpl; auto.
Qed.

Lemma sum_app (l1 l2 : list Z) : sum (l1 ++ l2) = sum l1 + sum l2.
Proof.
  unfold sum; induction l1 as [|a l1 IH]; simpl; [reflexivity | rewrite IH; ring].
Qed.

Lemma total_allocation_app (s1 s2 : list Phase) :
  total_allocation (s1 ++ s2) = total_allocation s1 + total_allocation s2.
Proof. unfold total_allocation; rewrite map_app; apply sum_app. Qed.

Lemma total_blocks_of_app (s1 s2 : list Phase) :
  total_blocks_of (s1 ++ s2) = total_blocks_of s1 + total_blocks_of s2.
Proof. unfold total_blocks_of; rewrite map_app; apply sum_app. Qed.

Lemma length_range (n : Z) : Z.of_nat (List.length (range n)) = Z.max 0 n.
Proof.
  unfold range; rewrite length_map, length_seq; lia.
Qed.

(** ** The duration planner *)

Section Planner.

Variable libm_pow : float -> float -> float.

(** What the rounding loop appends for the index [i]. *)
Definition rounded_duration (b0 growth_factor : float) (i d : Z) : Prop :=
  exists x r, raw_duration libm_pow b0 growth_factor i = Ok x
              /\ PyFloat.round x = Ok r /\ d = Z.max 1 r.

Lemma duration_loop (b0 g : float) (l : list Z) :
  forall acc ds,
    for_each (duration_body libm_pow b0 g) l acc = Ok ds ->
    exists new, ds = acc ++ new /\ Forall2 (rounded_duration b0 g) l new.
Proof.
  induction l as [|i l IH]; simpl; intros acc ds H.
  - ok_inv H. exists []; split; [now rewrite app_nil_r | constructor].
  - bind_inv H. unfold duration_body in E.
    bind_inv E. bind_inv E. ok_inv E.
    apply IH in H as (new & -> & Hnew).
    exists (Z.max 1 x1 :: new); split.
    + now rewrite <- app_assoc.
    + constructor; [exists x0, x1; auto | assumption].
Qed.

Lemma rounded_durations_positive (b0 g : float) (l ds : list Z) :
  Forall2 (rounded_duration b0 g) l ds -> Forall (fun d => 1 <= d) ds.
Proof.
  induction 1 as [|i d l ds (x & r & _ & _ & ->) _ IH]; constructor; [lia | assumption].
Qed.

(** The list the planner returns, from the list [raw] its loop built:
    [raw] itself when it already sums to the budget, and otherwise [raw]
    with its last cell replaced by the corrected value floored at 1. *)
Definition corrected (total_blocks : Z) (raw : list Z) : list Z :=
  if sum raw =? total_blocks then raw
  else removelast raw ++ [Z.max 1 (last raw 0 + (total_blocks - sum raw))].

Lemma calculate_block_durations_inv (total_blocks n : Z) (g : float) (ds : list Z) :
  calculate_block_durations libm_pow total_blocks n g = Ok ds ->
  exists b0 raw,
    Forall2 (rounded_duration b0 g) (range n) raw
    /\ ds = corrected total_blocks raw
    /\ (sum raw <> total_blocks -> raw <> []).
Proof.
  unfold calculate_block_durations; intros H.
  do 6 bind_inv H.
  apply duration_loop in E4 as (raw & -> & Hraw); simpl in *.
  exists x3, raw; split; [assumption|]. unfold corrected.
  destruct (sum raw =? total_blocks) eqn:Hs; simpl in H.
  - ok_inv H. split; [reflexivity | lia].
  - destruct raw as [|d raw]; [discriminate|].
    split; [|intros _; discriminate].
    remember (d :: raw) as l eqn:Hl.
    assert (Hget : get_last l = Ok (last l 0)) by now rewrite Hl.
    assert (Hset : forall v, set_last l v = Ok (removelast l ++ [v])) by now rewrite Hl.
    rewrite Hget in H; simpl bind in H. rewrite Hset in H; simpl bind in H.
    set (v := last l 0 + (total_blocks - sum l)) in *.
    assert (Hget' : get_last (removelast l ++ [v]) = Ok v).
    { unfold get_last. rewrite last_last. now destruct (removelast l). }
    assert (Hset' : forall w, set_last (removelast l ++ [v]) w = Ok (removelast l ++ [w])).
    { intros w; unfold set_last. rewrite removelast_last. now destruct (removelast l). }
    rewrite Hget' in H; simpl bind in H. rewrite Hset' in H. now ok_inv H.
Qed.

Lemma corrected_length (total_blocks : Z) (raw : list Z) :
  raw <> [] -> List.length (corrected total_blocks raw) = List.length raw.
Proof.
  intros Hne; unfold corrected. destruct (sum raw =? total_blocks); [reflexivity|].
  transitivity (List.length (removelast raw ++ [last raw 0])).
  - now rewrite !length_app.
  - now rewrite <- app_removelast_last.
Qed.

Lemma corrected_positive (total_blocks : Z) (raw : list Z) :
  Forall (fun d => 1 <= d) raw ->
  Forall (fun d => 1 <= d) (corrected total_blocks raw).
Proof.
  intros Hpos; unfold corrected. destruct (sum raw =? total_blocks); [assumption|].
  apply Forall_app; split.
  - destruct raw as [|d raw]; [constructor|].
    rewrite (app_removelast_last 0 (l := d :: raw)) in Hpos by discriminate.
    now apply Forall_app in Hpos.
  - constructor; [lia | constructor].
Qed.

Lemma removelast_corrected (total_blocks : Z) (raw : list Z) :
  removelast (corrected total_blocks raw) = removelast raw.
Proof.
  unfold corrected. destruct (sum raw =? total_blocks); [reflexivity|].
  apply removelast_last.
Qed.

(** The corrected list sums to the budget unless the cells before the last
    already use it up, the last one being at least 1. *)
Lemma corrected_sum (total_blocks : Z) (raw : list Z) :
  raw <> [] -> Forall (fun d => 1 <= d) raw ->
  sum (corrected total_blocks raw)
  = Z.max total_blocks (sum (removelast raw) + 1).
Proof.
  intros Hne Hpos. unfold corrected.
  pose proof (app_removelast_last 0 Hne) as Hsplit.
  assert (Hlast : 1 <= last raw 0).
  { rewrite Hsplit in Hpos. apply Forall_app in Hpos as [_ Hl]. now inversion Hl. }
  assert (Hsum : sum raw = sum (removelast raw) + last raw 0).
  { rewrite Hsplit at 1. rewrite sum_app. unfold sum at 2; simpl. ring. }
  destruct (sum raw =? total_blocks) eqn:Hs.
  - apply Z.eqb_eq in Hs. lia.
  - rewrite sum_app. unfold sum at 2; simpl. lia.
Qed.

End Planner.

(** ** The curve sampler *)

(** The zero-rate phase in front of the segments, when one is requested. *)
Definition prebid_prefix (prebid_blocks : Z) : list Phase :=
  if 0 <? prebid_blocks then [{| mps := 0; blockDelta := prebid_blocks |}] else [].

(** The remainder phase after segments that allocate [allocated]. *)
Definition remainder_phase (allocated : Z) : Phase :=
  {| mps := TOTAL_TARGET - allocated; blockDelta := 1 |}.

Section Sampler.

Variable libm_pow : float -> float -> float.

(** The phases the sampling loop appends when it starts at block [c] with
    the budget [T]: each rate is the one [segment_rate] gives for the tokens
    of the segment between the running block positions. *)
Inductive segment_phases (T : Z) : Z -> list Phase -> Prop :=
| segment_phases_nil : forall c, segment_phases T c []
| segment_phases_cons : forall c p rest tokens,
    segment_tokens libm_pow T c (c + blockDelta p) = Ok tokens ->
    segment_rate tokens (blockDelta p) = Ok (mps p) ->
    segment_phases T (c + blockDelta p) rest ->
    segment_phases T c (p :: rest).

Lemma segment_loop (T : Z) (durs : list Z) :
  forall st st',
    for_each (segment_body libm_pow T) durs st = Ok st' ->
    exists segs,
      schedule st' = schedule st ++ segs
      /\ map blockDelta segs = durs
      /\ cumulative_tokens st' = cumulative_tokens st + total_allocation segs
      /\ cumulative_blocks st' = cumulative_blocks st + sum durs
      /\ segment_phases T (cumulative_blocks st) segs.
Proof.
  induction durs as [|d durs IH]; simpl; intros st st' H.
  - ok_inv H. exists []. rewrite app_nil_r. unfold total_allocation, sum; simpl.
    repeat split; try lia. constructor.
  - bind_inv H. unfold segment_body in E. do 2 bind_inv E. ok_inv E.
    apply IH in H as (segs & Hs & Hd & Ht & Hb & Hp); simpl in *.
    exists ({| mps := x1; blockDelta := d |} :: segs).
    repeat split.
    + now rewrite Hs, <- app_assoc.
    + simpl. now rewrite Hd.
    + rewrite Ht. unfold total_allocation, sum; simpl. ring.
    + rewrite Hb. unfold sum; simpl. ring.
    + econstructor; simpl; eauto.
Qed.

(** Every successful run has the shape prefix, segments, remainder. *)
Lemma generate_schedule_inv (auction_blocks prebid_blocks : Z) (s : list Phase) :
  generate_schedule libm_pow auction_blocks prebid_blocks = Ok s ->
  exists durs segs,
    calculate_block_durations libm_pow (auction_blocks - 1)
      NUM_SEGMENTS GROWTH_EXPONENT = Ok durs
    /\ map blockDelta segs = durs
    /\ segment_phases (auction_blocks - 1) 0 segs
    /\ s = prebid_prefix prebid_blocks ++ segs
           ++ [remainder_phase (total_allocation segs)].
Proof.
  unfold generate_schedule; intros H. do 2 bind_inv H. ok_inv H.
  apply segment_loop in E0 as (segs & Hs & Hd & Ht & _ & Hp); simpl in *.
  exists x, segs. repeat split; try assumption.
  rewrite Hs, Ht, <- app_assoc. reflexivity.
Qed.

(** A schedule already built in front of the loop is carried along
    unchanged. *)
Definition with_prefix (pre : list Phase) (st : loop_state) : loop_state :=
  {| cumulative_blocks := cumulative_blocks st;
     cumulative_tokens := cumulative_tokens st;
     schedule := pre ++ schedule st |}.

Lemma segment_body_prefix (T : Z) (pre : list Phase) (st : loop_state) (d : Z) :
  segment_body libm_pow T (with_prefix pre st) d
  = fmap (with_prefix pre) (segment_body libm_pow T st d).
Proof.
  unfold segment_body, fmap; simpl.
  destruct (segment_tokens _ _ _ _) as [tokens|e]; simpl; [|reflexivity].
  destruct (segment_rate _ _) as [rate|e]; simpl; [|reflexivity].
  unfold with_prefix; simpl. now rewrite app_assoc.
Qed.

Lemma segment_loop_prefix (T : Z) (pre : list Phase) (durs : list Z) :
  forall st,
    for_each (segment_body libm_pow T) durs (with_prefix pre st)
    = fmap (with_prefix pre) (for_each (segment_body libm_pow T) durs st).
Proof.
  induction durs as [|d durs IH]; intros st; simpl; [reflexivity|].
  rewrite segment_body_prefix. unfold fmap at 1.
  destruct (segment_body libm_pow T st d) as [st1|e]; simpl; [apply IH | reflexivity].
Qed.



End Sampler.

(** The output depends on the C library only through the values of [pow]. *)
Section Extensionality.

Variables pow1 pow2 : float -> float -> float.
Hypothesis same_pow : forall x y, pow1 x y = pow2 x y.






End Extensionality.

(** ** Shape of the returned values *)

Lemma rounded_durations_length (pow : float -> float -> float) (b0 g : float)
    (l ds : list Z) :
  Forall2 (rounded_duration pow b0 g) l ds -> List.length ds = List.length l.
Proof. induction 1; simpl; congruence. Qed.

Lemma planner_shape (pow : float -> float -> float) (total_blocks n : Z) (g : float)
    (ds : list Z) :
  0 < n ->
  calculate_block_durations pow total_blocks n g = Ok ds ->
  Z.of_nat (List.length ds) = n
  /\ Forall (fun d => 1 <= d) ds
  /\ sum ds = Z.max total_blocks (sum (removelast ds) + 1).
Proof.
  intros Hn H.
  apply calculate_block_durations_inv in H as (b0 & raw & Hraw & -> & _).
  pose proof (rounded_durations_length _ _ _ _ _ Hraw) as Hlen.
  pose proof (rounded_durations_positive _ _ _ _ _ Hraw) as Hpos.
  pose proof (length_range n) as Hr.
  assert (Hne : raw <> []) by (intros ->; simpl in Hlen; lia).
  rewrite corrected_length, removelast_corrected, corrected_sum by assumption.
  repeat split; [lia | now apply corrected_positive].
Qed.

Lemma prebid_prefix_blocks (prebid_blocks : Z) :
  0 <= prebid_blocks -> total_blocks_of (prebid_prefix prebid_blocks) = prebid_blocks.
Proof.
  intros H; unfold prebid_prefix, total_blocks_of, sum.
  destruct (0 <? prebid_blocks) eqn:E; simpl; lia.
Qed.

Lemma prebid_prefix_allocation (prebid_blocks : Z) :
  total_allocation (prebid_prefix prebid_blocks) = 0.
Proof.
  unfold prebid_prefix, total_allocation, sum.
  destruct (0 <? prebid_blocks); reflexivity.
Qed.

(** ** Order of the rounded durations *)

(** Rounding to an integer, half to even. *)
Lemma rhe_bounds (m k : Z) :
  m / 2 ^ k <= PyFloat.round_half_even m k <= m / 2 ^ k + 1.
Proof.
  unfold PyFloat.round_half_even.
  destruct (_ <? _); [lia|]. destruct (_ <? _); [lia|]. destruct (Z.even _); lia.
Qed.

Lemma rhe_monotone (m1 m2 k : Z) :
  1 <= k -> m1 <= m2 ->
  PyFloat.round_half_even m1 k <= PyFloat.round_half_even m2 k.
Proof.
  intros Hk Hm.
  assert (Hh : 0 < 2 ^ (k - 1)) by (apply Z.pow_pos_nonneg; lia).
  assert (HP : 2 ^ k = 2 * 2 ^ (k - 1)).
  { replace k with (Z.succ (k - 1)) at 1 by lia. apply Z.pow_succ_r. lia. }
  pose proof (Z.div_mod m1 (2 ^ k) ltac:(lia)) as D1.
  pose proof (Z.div_mod m2 (2 ^ k) ltac:(lia)) as D2.
  pose proof (Z.mod_pos_bound m1 (2 ^ k) ltac:(lia)) as B1.
  pose proof (Z.mod_pos_bound m2 (2 ^ k) ltac:(lia)) as B2.
  pose proof (Z.div_le_mono m1 m2 (2 ^ k) ltac:(lia) Hm) as Hq.
  pose proof (rhe_bounds m1 k) as R1. pose proof (rhe_bounds m2 k) as R2.
  destruct (Z.eq_dec (m1 / 2 ^ k) (m2 / 2 ^ k)) as [Heq|Hne]; [|lia].
  unfold PyFloat.round_half_even in *. rewrite <- Heq in *.
  set (q := m1 / 2 ^ k) in *. set (h := 2 ^ (k - 1)) in *.
  set (r1 := m1 mod 2 ^ k) in *. set (r2 := m2 mod 2 ^ k) in *.
  assert (r1 <= r2) by lia.
  destruct (r1 <? h) eqn:A1; destruct (r2 <? h) eqn:A2;
    destruct (h <? r1) eqn:C1; destruct (h <? r2) eqn:C2;
    destruct (Z.even q); lia.
Qed.

Lemma rhe_exact (a k : Z) :
  1 <= k -> PyFloat.round_half_even (a * 2 ^ k) k = a.
Proof.
  intros Hk. unfold PyFloat.round_half_even.
  assert (Hh : 0 < 2 ^ (k - 1)) by (apply Z.pow_pos_nonneg; lia).
  assert (HP : 0 < 2 ^ k) by (apply Z.pow_pos_nonneg; lia).
  rewrite Z.div_mul, Z.mod_mul by lia.
  destruct (0 <? 2 ^ (k - 1)) eqn:E; [reflexivity | lia].
Qed.

Lemma rhe_scale (m k j : Z) :
  1 <= k -> 0 <= j ->
  PyFloat.round_half_even (m * 2 ^ j) (k + j) = PyFloat.round_half_even m k.
Proof.
  intros Hk Hj. unfold PyFloat.round_half_even.
  assert (Hj' : 0 < 2 ^ j) by (apply Z.pow_pos_nonneg; lia).
  assert (Hk' : 0 < 2 ^ k) by (apply Z.pow_pos_nonneg; lia).
  assert (Hh : 0 < 2 ^ (k - 1)) by (apply Z.pow_pos_nonneg; lia).
  replace (k + j - 1) with ((k - 1) + j) by lia.
  rewrite !Z.pow_add_r by lia.
  rewrite Z.div_mul_cancel_r by lia.
  rewrite Z.mul_mod_distr_r by lia.
  set (r := m mod 2 ^ k). set (h := 2 ^ (k - 1)). set (c := 2 ^ j) in *.
  assert (E1 : (r * c <? h * c) = (r <? h)).
  { destruct (r <? h) eqn:E; [apply Z.ltb_lt | apply Z.ltb_ge]; nia. }
  assert (E2 : (h * c <? r * c) = (h <? r)).
  { destruct (h <? r) eqn:E; [apply Z.ltb_lt | apply Z.ltb_ge]; nia. }
  now rewrite E1, E2.
Qed.

Lemma pow2_succ (n : Z) : 0 <= n -> 2 ^ (n + 1) = 2 * 2 ^ n.
Proof. intros H. replace (n + 1) with (Z.succ n) by lia. now rewrite Z.pow_succ_r. Qed.

Lemma digits2_bounds (p : positive) :
  2 ^ (Zpos (digits2_pos p) - 1) <= Zpos p < 2 ^ Zpos (digits2_pos p).
Proof.
  induction p as [p IH|p IH|]; simpl digits2_pos.
  - rewrite Pos2Z.inj_succ.
    replace (Z.succ (Zpos (digits2_pos p)) - 1) with (Z.succ (Zpos (digits2_pos p) - 1)) by lia.
    rewrite !Z.pow_succ_r by lia. lia.
  - rewrite Pos2Z.inj_succ.
    replace (Z.succ (Zpos (digits2_pos p)) - 1) with (Z.succ (Zpos (digits2_pos p) - 1)) by lia.
    rewrite !Z.pow_succ_r by lia. lia.
  - simpl. lia.
Qed.

(** The record reached after shifting [M] right by [n] bits. *)
Definition shr_inv (M n : Z) (rec : shr_record) : Prop :=
  0 <= shr_m rec
  /\ exists u, 0 <= u < 2 ^ n
       /\ 2 * M = 2 ^ (n + 1) * shr_m rec + (if shr_r rec then 2 ^ n else 0) + u
       /\ (shr_s rec = true <-> 0 < u).

Lemma shr_inv_init (M : Z) :
  0 <= M -> shr_inv M 0 {| shr_m := M; shr_r := false; shr_s := false |}.
Proof.
  intros HM; split; [assumption|]. exists 0; simpl.
  repeat split; try lia; try discriminate.
Qed.

Lemma shr_inv_step (M n : Z) (rec : shr_record) :
  0 <= n -> shr_inv M n rec -> shr_inv M (n + 1) (shr_1 rec).
Proof.
  intros Hn (Hm & u & Hu & HM & Hs).
  assert (Hp : 0 < 2 ^ n) by (apply Z.pow_pos_nonneg; lia).
  assert (E1 : 2 ^ (n + 1) = 2 * 2 ^ n) by (apply pow2_succ; lia).
  assert (E2 : 2 ^ (n + 1 + 1) = 4 * 2 ^ n) by (rewrite !pow2_succ by lia; lia).
  destruct rec as [m r s]; cbn [shr_m shr_r shr_s] in *.
  assert (Hcase : forall m' (b : bool),
             0 <= m' -> m = 2 * m' + (if b then 1 else 0) ->
             shr_inv M (n + 1) {| shr_m := m'; shr_r := b; shr_s := r || s |}).
  { intros m' b Hm' Hmb. split; [exact Hm'|].
    exists ((if r then 2 ^ n else 0) + u). cbn [shr_m shr_r shr_s].
    rewrite E1, E2. subst m.
    repeat split; destruct r, s, b; cbn [orb]; try lia;
      try (intros; discriminate); try (intros _; apply Hs; reflexivity). }
  destruct m as [|[p|p|]|p]; cbn [shr_1]; try lia.
  - apply (Hcase 0 false); lia.
  - apply (Hcase (Zpos p) true); lia.
  - apply (Hcase (Zpos p) false); lia.
  - apply (Hcase 0 true); lia.
Qed.

Lemma shr_inv_iter (M : Z) (p : positive) :
  forall n rec, 0 <= n -> shr_inv M n rec ->
                shr_inv M (n + Zpos p) (iter_pos shr_1 p rec).
Proof.
  induction p as [p IH|p IH|]; intros n rec Hn H; simpl iter_pos.
  - replace (n + Zpos p~1) with (n + 1 + Zpos p + Zpos p) by lia.
    apply IH; [lia|]. apply IH; [lia|]. now apply shr_inv_step.
  - replace (n + Zpos p~0) with (n + Zpos p + Zpos p) by lia.
    apply IH; [lia|]. now apply IH.
  - now apply shr_inv_step.
Qed.

Lemma shr_inv_quotient (M n : Z) (rec : shr_record) :
  0 <= n -> shr_inv M n rec -> shr_m rec = M / 2 ^ n.
Proof.
  intros Hn (Hm & u & Hu & HM & Hs).
  assert (Hp : 0 < 2 ^ n) by (apply Z.pow_pos_nonneg; lia).
  assert (E1 : 2 ^ (n + 1) = 2 * 2 ^ n) by (apply pow2_succ; lia).
  apply Z.div_unique with (r := M - 2 ^ n * shr_m rec); [|lia].
  left. destruct (shr_r rec); nia.
Qed.

Lemma shr_inv_round (M n : Z) (rec : shr_record) :
  1 <= n -> shr_inv M n rec ->
  round_nearest_even (shr_m rec) (loc_of_shr_record rec)
  = PyFloat.round_half_even M n.
Proof.
  intros Hn H. pose proof (shr_inv_quotient M n rec ltac:(lia) H) as Hq.
  destruct H as (Hm & u & Hu & HM & Hs).
  assert (Hh : 0 < 2 ^ (n - 1)) by (apply Z.pow_pos_nonneg; lia).
  assert (E0 : 2 ^ n = 2 * 2 ^ (n - 1)).
  { replace n with (Z.succ (n - 1)) at 1 by lia. apply Z.pow_succ_r. lia. }
  assert (E1 : 2 ^ (n + 1) = 2 * 2 ^ n) by (apply pow2_succ; lia).
  unfold PyFloat.round_half_even. rewrite <- Hq.
  assert (Hr : 2 * (M mod 2 ^ n) = (if shr_r rec then 2 ^ n else 0) + u).
  { rewrite Z.mod_eq by lia. rewrite <- Hq. lia. }
  destruct rec as [m r s]; cbn [shr_m shr_r shr_s loc_of_shr_record round_nearest_even] in *.
  set (h := 2 ^ (n - 1)) in *. set (rr := M mod 2 ^ n) in *.
  destruct r, s; cbn [loc_of_shr_record round_nearest_even].
  - assert (0 < u) by (apply Hs; reflexivity).
    destruct (rr <? h) eqn:A; [lia|]. destruct (h <? rr) eqn:C; [reflexivity | lia].
  - assert (~ 0 < u) by (intros Hk; apply Hs in Hk; discriminate).
    destruct (rr <? h) eqn:A; [lia|]. destruct (h <? rr) eqn:C; [lia | reflexivity].
  - destruct (rr <? h) eqn:A; [reflexivity | lia].
  - destruct (rr <? h) eqn:A; [reflexivity | lia].
Qed.

Definition bias : Z := 2200.

Lemma fexp_eq (x : Z) : fexp prec emax x = Z.max (x - 53) (-1074).
Proof. reflexivity. Qed.

Lemma pow2_pos (n : Z) : 0 <= n -> 0 < 2 ^ n.
Proof. intros; apply Z.pow_pos_nonneg; lia. Qed.

Lemma pow2_le (a b : Z) : 0 <= a <= b -> 2 ^ a <= 2 ^ b.
Proof. intros; apply Z.pow_le_mono_r; lia. Qed.

Lemma pow2_split (a b : Z) : 0 <= a -> 0 <= b -> 2 ^ (a + b) = 2 ^ a * 2 ^ b.
Proof. intros; apply Z.pow_add_r; lia. Qed.

(** The value of a rounded product, in units of [2 ^ (- bias)]: [None]
    when it overflowed. *)
Definition rounded_value (f : spec_float) : option Z :=
  match f with
  | S754_zero _ => Some 0
  | S754_finite _ m e => Some (Zpos m * 2 ^ (e + bias))
  | _ => None
  end.

Lemma shr_fexp_no_shift (m e : Z) :
  fexp prec emax (Zdigits2 m + e) - e <= 0 ->
  shr_fexp prec emax m e loc_Exact
  = ({| shr_m := m; shr_r := false; shr_s := false |}, e).
Proof.
  intros H. unfold shr_fexp, shr. cbn [shr_record_of_loc].
  destruct (fexp prec emax (Zdigits2 m + e) - e); try reflexivity. lia.
Qed.

Lemma shr_fexp_shift (m e : Z) :
  0 <= m -> 0 < fexp prec emax (Zdigits2 m + e) - e ->
  exists rec,
    shr_fexp prec emax m e loc_Exact = (rec, fexp prec emax (Zdigits2 m + e))
    /\ shr_inv m (fexp prec emax (Zdigits2 m + e) - e) rec.
Proof.
  intros Hm H. unfold shr_fexp, shr. cbn [shr_record_of_loc].
  destruct (fexp prec emax (Zdigits2 m + e) - e) as [|p|p] eqn:En; try lia.
  exists (iter_pos shr_1 p {| shr_m := m; shr_r := false; shr_s := false |}).
  split; [f_equal; lia|].
  change (Zpos p) with (0 + Zpos p). apply shr_inv_iter; [lia|].
  now apply shr_inv_init.
Qed.

Lemma rhe_upper (M n d : Z) :
  1 <= n -> 0 <= d -> 0 <= M < 2 ^ (n + d) -> PyFloat.round_half_even M n <= 2 ^ d.
Proof.
  intros Hn Hd HM.
  rewrite <- (rhe_exact (2 ^ d) n Hn).
  apply rhe_monotone; [assumption|]. rewrite <- pow2_split by lia.
  replace (d + n) with (n + d) by lia. lia.
Qed.

Lemma rhe_nonneg (M n : Z) : 1 <= n -> 0 <= M -> 0 <= PyFloat.round_half_even M n.
Proof.
  intros Hn HM. rewrite <- (rhe_exact 0 n Hn). apply rhe_monotone; lia.
Qed.

Lemma round_aux_value (p : positive) (E : Z) :
  - bias <= E ->
  match rounded_value (binary_round_aux prec emax false (Zpos p) E loc_Exact) with
  | Some v =>
      v = PyFloat.round_half_even (Zpos p * 2 ^ (E + bias))
            (fexp prec emax (Zpos (digits2_pos p) + E) + bias)
          * 2 ^ (fexp prec emax (Zpos (digits2_pos p) + E) + bias)
  | None => True
  end.
Proof.
  intros HE. unfold binary_round_aux.
  pose proof (digits2_bounds p) as Hd.
  set (d := Zpos (digits2_pos p)) in *.
  assert (Hd0 : 1 <= d) by (unfold d; lia).
  change (Zdigits2 (Zpos p)) with d.
  set (ex := fexp prec emax (d + E)).
  assert (Hex : ex = Z.max (d + E - 53) (-1074)) by apply fexp_eq.
  assert (HK : 1 <= ex + bias) by (unfold bias; lia).
  destruct (Z_le_gt_dec (ex - E) 0) as [Hn|Hn].
  - (* the product is already on the grid *)
    rewrite (shr_fexp_no_shift (Zpos p) E) by (change (Zdigits2 (Zpos p)) with d; fold ex; lia).
    cbn [shr_m loc_of_shr_record round_nearest_even].
    rewrite (shr_fexp_no_shift (Zpos p) E) by (change (Zdigits2 (Zpos p)) with d; fold ex; lia).
    cbn [shr_m].
    assert (HW : Zpos p * 2 ^ (E + bias) = (Zpos p * 2 ^ (E - ex)) * 2 ^ (ex + bias)).
    { assert (Hs : 2 ^ (E + bias) = 2 ^ (E - ex) * 2 ^ (ex + bias)).
      { rewrite <- pow2_split; [f_equal|..]; lia. }
      rewrite Hs. ring. }
    destruct (E <=? emax - prec); cbn [rounded_value]; [|exact I].
    rewrite HW at 2. rewrite rhe_exact by lia. exact HW.
  - (* the product is shifted right by [ex - E] bits and rounded *)
    destruct (shr_fexp_shift (Zpos p) E (Pos2Z.is_nonneg p)) as (rec & Hshr & Hinv);
      [change (Zdigits2 (Zpos p)) with d; fold ex; lia|].
    change (Zdigits2 (Zpos p)) with d in Hshr, Hinv. fold ex in Hshr, Hinv.
    rewrite Hshr. rewrite (shr_inv_round (Zpos p) (ex - E) rec ltac:(lia) Hinv).
    assert (Hscale : PyFloat.round_half_even (Zpos p * 2 ^ (E + bias)) (ex + bias)
                     = PyFloat.round_half_even (Zpos p) (ex - E)).
    { replace (ex + bias) with ((ex - E) + (E + bias)) by lia.
      apply rhe_scale; lia. }
    rewrite Hscale.
    pose proof (rhe_nonneg (Zpos p) (ex - E) ltac:(lia) ltac:(lia)) as Hlo.
    assert (Hhi : PyFloat.round_half_even (Zpos p) (ex - E) <= 2 ^ 53).
    { apply rhe_upper; try lia. split; [lia|].
      apply Z.lt_le_trans with (2 ^ d); [lia|]. apply pow2_le; lia. }
    destruct (PyFloat.round_half_even (Zpos p) (ex - E)) as [|q|q] eqn:Hq; try lia.
    + rewrite shr_fexp_no_shift by (rewrite fexp_eq; cbn [Zdigits2]; lia).
      cbn [shr_m rounded_value]. lia.
    + pose proof (digits2_bounds q) as Hdq.
      set (dq := Zpos (digits2_pos q)) in *.
      destruct (Z_le_gt_dec (fexp prec emax (dq + ex) - ex) 0) as [Hn2|Hn2].
      * rewrite shr_fexp_no_shift by (change (Zdigits2 (Zpos q)) with dq; lia).
        cbn [shr_m].
        destruct (ex <=? emax - prec); cbn [rounded_value]; [reflexivity | exact I].
      * rewrite fexp_eq in Hn2.
        assert (Hdq54 : 54 <= dq) by lia.
        assert (H53 : 2 ^ 53 <= 2 ^ (dq - 1)) by (apply pow2_le; lia).
        assert (Hq53 : Zpos q = 2 ^ 53) by lia.
        assert (Hdq' : dq = 54).
        { destruct (Z_le_gt_dec dq 54); [lia|].
          assert (2 ^ 54 <= 2 ^ (dq - 1)) by (apply pow2_le; lia).
          assert (2 ^ 53 < 2 ^ 54) by (apply Z.pow_lt_mono_r; lia). lia. }
        destruct (shr_fexp_shift (Zpos q) ex (Pos2Z.is_nonneg q)) as (rec2 & Hshr2 & Hinv2);
          [change (Zdigits2 (Zpos q)) with dq; rewrite fexp_eq; lia|].
        change (Zdigits2 (Zpos q)) with dq in Hshr2, Hinv2.
        rewrite fexp_eq in Hshr2, Hinv2.
        replace (Z.max (dq + ex - 53) (-1074)) with (ex + 1) in Hshr2, Hinv2 by lia.
        replace (ex + 1 - ex) with 1 in Hinv2 by lia.
        rewrite Hshr2.
        rewrite (shr_inv_quotient (Zpos q) 1 rec2 ltac:(lia) Hinv2), Hq53.
        change (2 ^ 53 / 2 ^ 1) with (Zpos (2 ^ 52)).
        destruct (ex + 1 <=? emax - prec); cbn [rounded_value]; [|exact I].
        replace (ex + 1 + bias) with ((ex + bias) + 1) by lia.
        rewrite pow2_succ by lia. change (Zpos (2 ^ 52)) with (2 ^ 52).
        change (2 ^ 53) with (2 * 2 ^ 52). lia.
Qed.

(** Rounding to nearest is monotone, across binades too. *)
Lemma rounded_value_monotone (p1 p2 : positive) (E1 E2 v1 v2 : Z) :
  - bias <= E1 -> - bias <= E2 ->
  Zpos p1 * 2 ^ (E1 + bias) <= Zpos p2 * 2 ^ (E2 + bias) ->
  rounded_value (binary_round_aux prec emax false (Zpos p1) E1 loc_Exact) = Some v1 ->
  rounded_value (binary_round_aux prec emax false (Zpos p2) E2 loc_Exact) = Some v2 ->
  v1 <= v2.
Proof.
  intros HE1 HE2 HW H1 H2.
  pose proof (round_aux_value p1 E1 HE1) as V1. rewrite H1 in V1.
  pose proof (round_aux_value p2 E2 HE2) as V2. rewrite H2 in V2.
  rewrite !fexp_eq in V1, V2.
  pose proof (digits2_bounds p1) as D1. pose proof (digits2_bounds p2) as D2.
  set (d1 := Zpos (digits2_pos p1)) in *. set (d2 := Zpos (digits2_pos p2)) in *.
  assert (Hd1 : 1 <= d1) by (unfold d1; lia).
  assert (Hd2 : 1 <= d2) by (unfold d2; lia).
  set (W1 := Zpos p1 * 2 ^ (E1 + bias)) in *.
  set (W2 := Zpos p2 * 2 ^ (E2 + bias)) in *.
  set (K1 := Z.max (d1 + E1 - 53) (-1074) + bias) in *.
  set (K2 := Z.max (d2 + E2 - 53) (-1074) + bias) in *.
  assert (HK1 : 1 <= K1) by (unfold K1, bias; lia).
  assert (HK2 : 1 <= K2) by (unfold K2, bias; lia).
  assert (P1 := pow2_pos (E1 + bias) ltac:(lia)).
  assert (P2 := pow2_pos (E2 + bias) ltac:(lia)).
  (* the magnitudes of the two exact products *)
  assert (L1 : 2 ^ (d1 - 1 + (E1 + bias)) <= W1 < 2 ^ (d1 + (E1 + bias))).
  { rewrite (pow2_split (d1 - 1) (E1 + bias)), (pow2_split d1 (E1 + bias)) by lia.
    unfold W1. nia. }
  assert (L2 : 2 ^ (d2 - 1 + (E2 + bias)) <= W2 < 2 ^ (d2 + (E2 + bias))).
  { rewrite (pow2_split (d2 - 1) (E2 + bias)), (pow2_split d2 (E2 + bias)) by lia.
    unfold W2. nia. }
  assert (Hmu : d1 + E1 <= d2 + E2).
  { destruct (Z_le_gt_dec (d1 + E1) (d2 + E2)) as [|Hgt]; [assumption|].
    assert (2 ^ (d2 + (E2 + bias)) <= 2 ^ (d1 - 1 + (E1 + bias))) by (apply pow2_le; lia).
    lia. }
  assert (PK1 := pow2_pos K1 ltac:(lia)). assert (PK2 := pow2_pos K2 ltac:(lia)).
  destruct (Z.eq_dec K1 K2) as [HK|HK].
  - rewrite <- HK in *. pose proof (rhe_monotone W1 W2 K1 HK1 HW). subst v1 v2. nia.
  - assert (Hlt : K1 < K2) by (unfold K1, K2 in *; lia).
    assert (HK2' : K2 = d2 + E2 - 53 + bias) by (unfold K1, K2 in *; lia).
    assert (Hmu' : d1 + E1 < d2 + E2) by (unfold K1, K2 in *; lia).
    set (T := d2 - 1 + (E2 + bias)) in *.
    assert (HT1 : K1 <= T) by (unfold T; lia).
    assert (HT2 : T = 52 + K2) by (unfold T; lia).
    assert (Hup : v1 <= 2 ^ T).
    { assert (Hr : PyFloat.round_half_even W1 K1 <= 2 ^ (T - K1)).
      { rewrite <- (rhe_exact (2 ^ (T - K1)) K1 HK1). apply rhe_monotone; [assumption|].
        rewrite <- (pow2_split (T - K1) K1) by lia. replace (T - K1 + K1) with T by lia.
        assert (2 ^ (d1 + (E1 + bias)) <= 2 ^ T) by (apply pow2_le; unfold T; lia). lia. }
      subst v1. replace T with ((T - K1) + K1) by lia.
      rewrite (pow2_split (T - K1) K1) by lia. nia. }
    assert (Hlo : 2 ^ T <= v2).
    { assert (Hr : 2 ^ 52 <= PyFloat.round_half_even W2 K2).
      { rewrite <- (rhe_exact (2 ^ 52) K2 HK2). apply rhe_monotone; [assumption|].
        rewrite <- (pow2_split 52 K2) by lia. rewrite <- HT2. lia. }
      subst v2. rewrite HT2, (pow2_split 52 K2) by lia. nia. }
    lia.
Qed.

Lemma valid_finite (s : bool) (m : positive) (e : Z) :
  valid_binary (S754_finite s m e) = true ->
  e = Z.max (Zpos (digits2_pos m) + e - 53) (-1074).
Proof.
  unfold SpecFloat.valid_binary, bounded, canonical_mantissa. intros H.
  apply andb_prop in H as [H _]. apply Z.eqb_eq in H.
  rewrite fexp_eq in H. lia.
Qed.

(** The integer [round] returns, from the value of its argument. *)
Lemma round_finite_value (m : positive) (e : Z) :
  - bias <= e ->
  (if 0 <=? e then Zpos m * 2 ^ e else PyFloat.round_half_even (Zpos m) (- e))
  = PyFloat.round_half_even (Zpos m * 2 ^ (e + bias)) bias.
Proof.
  intros He. assert (Hb : 1 <= bias) by (unfold bias; lia).
  destruct (0 <=? e) eqn:E.
  - apply Z.leb_le in E. rewrite (pow2_split e bias) by lia.
    rewrite Z.mul_assoc. now rewrite rhe_exact.
  - apply Z.leb_gt in E.
    replace bias with ((- e) + (e + bias)) at 2 by lia.
    rewrite rhe_scale by lia. reflexivity.
Qed.

Lemma round_inv (x : float) (r : Z) :
  PyFloat.round x = Ok r ->
  (exists s, Prim2SF x = S754_zero s /\ r = 0)
  \/ (exists s m e,
         Prim2SF x = S754_finite s m e
         /\ r = cond_Zopp s (PyFloat.round_half_even (Zpos m * 2 ^ (e + bias)) bias)).
Proof.
  unfold PyFloat.round. pose proof (Prim2SF_valid x) as Hv.
  destruct (Prim2SF x) as [s|s| |s m e]; intros H; try discriminate.
  - left. exists s. split; [reflexivity|]. now apply Ok_inj in H.
  - right. exists s, m, e. split; [reflexivity|]. apply Ok_inj in H. subst r.
    apply valid_finite in Hv. rewrite round_finite_value; [reflexivity|].
    unfold bias; lia.
Qed.

(** The order of two positive floats is the order of their values. *)
Lemma leb_value (c : Z) (m1 m2 : positive) (e1 e2 : Z) :
  1074 <= c ->
  valid_binary (S754_finite false m1 e1) = true ->
  valid_binary (S754_finite false m2 e2) = true ->
  SFleb (S754_finite false m1 e1) (S754_finite false m2 e2) = true ->
  Zpos m1 * 2 ^ (e1 + c) <= Zpos m2 * 2 ^ (e2 + c).
Proof.
  intros Hc V1 V2 H. apply valid_finite in V1, V2.
  pose proof (digits2_bounds m1) as D1. pose proof (digits2_bounds m2) as D2.
  set (d1 := Zpos (digits2_pos m1)) in *. set (d2 := Zpos (digits2_pos m2)) in *.
  assert (Hd1 : 1 <= d1) by (unfold d1; lia).
  assert (Hd2 : 1 <= d2) by (unfold d2; lia).
  assert (B1 : 0 <= e1 + c) by lia.
  assert (B2 : 0 <= e2 + c) by lia.
  assert (P1 := pow2_pos (e1 + c) B1). assert (P2 := pow2_pos (e2 + c) B2).
  unfold SFleb, SFcompare in H.
  destruct (Z.compare_spec e1 e2) as [Heq|Hlt|Hgt]; try discriminate.
  - subst e2. rewrite Pos.compare_cont_spec in H. simpl in H.
    assert (Zpos m1 <= Zpos m2).
    { destruct (Pos.compare_spec m1 m2); try discriminate; lia. }
    nia.
  - assert (Hd1' : d1 <= 53) by lia. assert (Hd2' : d2 = 53) by lia.
    assert (2 ^ d1 <= 2 ^ 53) by (apply pow2_le; lia).
    assert (Hm2 : 2 ^ 52 <= Zpos m2) by (rewrite Hd2' in D2; exact (proj1 D2)).
    assert (Hs : 2 ^ (e2 + c) = 2 ^ (e2 - e1) * 2 ^ (e1 + c)).
    { rewrite <- (pow2_split (e2 - e1) (e1 + c)) by lia. f_equal. lia. }
    assert (2 * 1 <= 2 ^ (e2 - e1)).
    { replace (e2 - e1) with ((e2 - e1 - 1) + 1) by lia. rewrite pow2_succ by lia.
      pose proof (pow2_pos (e2 - e1 - 1) ltac:(lia)). lia. }
    rewrite Hs. change (2 ^ 53) with (2 * 2 ^ 52) in *. nia.
Qed.

Lemma round_aux_sign (sx : bool) (M E : Z) (l : location) :
  match binary_round_aux prec emax sx M E l with
  | S754_zero s | S754_finite s _ _ => s = sx
  | _ => True
  end.
Proof.
  unfold binary_round_aux.
  destruct (shr_fexp prec emax M E l) as [mrs' e'].
  destruct (shr_fexp prec emax _ e' loc_Exact) as [mrs'' e''].
  destruct (shr_m mrs''); [reflexivity | | exact I].
  destruct (e'' <=? emax - prec); [reflexivity | exact I].
Qed.

Lemma round_aux_any_sign (sx : bool) (M E : Z) (l : location) :
  rounded_value (binary_round_aux prec emax sx M E l)
  = rounded_value (binary_round_aux prec emax false M E l).
Proof.
  unfold binary_round_aux.
  destruct (shr_fexp prec emax M E l) as [mrs' e'].
  destruct (shr_fexp prec emax _ e' loc_Exact) as [mrs'' e''].
  destruct (shr_m mrs''); [reflexivity | | reflexivity].
  destruct (e'' <=? emax - prec); reflexivity.
Qed.

(** What [round] returns on a product, from the rounded value of the
    product. *)
Lemma round_product (x : float) (sx : bool) (M E r : Z) :
  Prim2SF x = binary_round_aux prec emax sx M E loc_Exact ->
  PyFloat.round x = Ok r ->
  exists v, rounded_value (binary_round_aux prec emax false M E loc_Exact) = Some v
            /\ 0 <= v
            /\ r = cond_Zopp sx (PyFloat.round_half_even v bias).
Proof.
  intros Hx Hr. apply round_inv in Hr.
  pose proof (round_aux_sign sx M E loc_Exact) as Hs.
  rewrite <- (round_aux_any_sign sx). rewrite <- Hx in *.
  assert (Hb : 1 <= bias) by (unfold bias; lia).
  destruct Hr as [(s & Hz & ->) | (s & m & e & Hf & ->)].
  - rewrite Hz in *. exists 0. cbn [rounded_value]. repeat split; [lia|].
    rewrite <- (Z.mul_0_l (2 ^ bias)), rhe_exact by lia. now destruct sx.
  - rewrite Hf in *. subst s. eexists; cbn [rounded_value]. repeat split.
    pose proof (Prim2SF_valid x) as Hv. rewrite Hf in Hv. apply valid_finite in Hv.
    pose proof (pow2_pos (e + bias) ltac:(unfold bias; lia)). lia.
Qed.

Lemma positive_float (g : float) :
  (0 <? g)%float = true ->
  Prim2SF g = S754_infinity false
  \/ exists m e, Prim2SF g = S754_finite false m e.
Proof.
  rewrite ltb_spec. change (Prim2SF 0) with (S754_zero false).
  unfold SFltb, SFcompare.
  destruct (Prim2SF g) as [s|[|]| |[|] m e]; try discriminate; eauto.
Qed.

(** Multiplying by the same factor and rounding keeps the order of two
    positive floats, after the floor at one block. *)
Lemma mul_round_monotone (b0 g1 g2 : float) (r1 r2 : Z) :
  (0 <? g1)%float = true -> (g1 <=? g2)%float = true ->
  PyFloat.round (b0 * g1) = Ok r1 -> PyFloat.round (b0 * g2) = Ok r2 ->
  Z.max 1 r1 <= Z.max 1 r2.
Proof.
  intros Hpos Hle H1 H2.
  assert (Hb : 1 <= bias) by (unfold bias; lia).
  pose proof (Prim2SF_valid g1) as V1. pose proof (Prim2SF_valid g2) as V2.
  pose proof (Prim2SF_valid b0) as V0.
  pose proof (mul_spec b0 g1) as M1. pose proof (mul_spec b0 g2) as M2.
  rewrite leb_spec in Hle.
  unfold PyFloat.round in H1, H2.
  destruct (positive_float g1 Hpos) as [G1 | (m1 & e1 & G1)]; rewrite G1 in *.
  { (* an infinite factor cannot be rounded *)
    unfold SF64mul, SFmul in M1. rewrite M1 in H1.
    destruct (Prim2SF b0); discriminate. }
  destruct (Prim2SF g2) as [s2|[|]| |[|] m2 e2] eqn:G2; try discriminate.
  { unfold SF64mul, SFmul in M2. rewrite M2 in H2.
    destruct (Prim2SF b0); discriminate. }
  fold (PyFloat.round (b0 * g1)) in H1. fold (PyFloat.round (b0 * g2)) in H2.
  destruct (Prim2SF b0) as [s0|s0| |s0 m0 e0] eqn:G0.
  - (* a zero factor *)
    unfold PyFloat.round in H1, H2. rewrite M1 in H1. rewrite M2 in H2.
    cbn in H1, H2. apply Ok_inj in H1, H2. lia.
  - unfold PyFloat.round in H1. rewrite M1 in H1. discriminate.
  - unfold PyFloat.round in H1. rewrite M1 in H1. discriminate.
  - cbn [SF64mul SFmul] in M1, M2.
    destruct (round_product _ _ _ _ _ M1 H1) as (v1 & Hv1 & Hv1' & ->).
    destruct (round_product _ _ _ _ _ M2 H2) as (v2 & Hv2 & Hv2' & ->).
    pose proof (rhe_nonneg v1 bias Hb Hv1') as N1.
    pose proof (rhe_nonneg v2 bias Hb Hv2') as N2.
    destruct (xorb s0 false) eqn:Hs; cbn [cond_Zopp]; [lia|].
    apply valid_finite in V0.
    pose proof (valid_finite _ _ _ V1) as V1'. pose proof (valid_finite _ _ _ V2) as V2'.
    assert (Hv : v1 <= v2).
    { apply (rounded_value_monotone (m0 * m1) (m0 * m2) (e0 + e1) (e0 + e2));
        try assumption; try (unfold bias; lia).
      pose proof (leb_value 1074 m1 m2 e1 e2 ltac:(lia) V1 V2 Hle) as Hg.
      assert (S1 : 2 ^ (e0 + e1 + bias) = 2 ^ (e1 + 1074) * 2 ^ (e0 + bias - 1074)).
      { rewrite <- pow2_split by (unfold bias; lia). f_equal. lia. }
      assert (S2 : 2 ^ (e0 + e2 + bias) = 2 ^ (e2 + 1074) * 2 ^ (e0 + bias - 1074)).
      { rewrite <- pow2_split by (unfold bias; lia). f_equal. lia. }
      rewrite S1, S2, !Pos2Z.inj_mul.
      pose proof (pow2_pos (e0 + bias - 1074) ltac:(unfold bias; lia)).
      assert (0 < Zpos m0) by lia.
      set (a1 := Zpos m1 * 2 ^ (e1 + 1074)) in *.
      set (a2 := Zpos m2 * 2 ^ (e2 + 1074)) in *.
      replace (Zpos m0 * Zpos m1 * (2 ^ (e1 + 1074) * 2 ^ (e0 + bias - 1074)))
        with (Zpos m0 * 2 ^ (e0 + bias - 1074) * a1) by (unfold a1; ring).
      replace (Zpos m0 * Zpos m2 * (2 ^ (e2 + 1074) * 2 ^ (e0 + bias - 1074)))
        with (Zpos m0 * 2 ^ (e0 + bias - 1074) * a2) by (unfold a2; ring).
      apply Z.mul_le_mono_nonneg_l; [nia | exact Hg]. }
    pose proof (rhe_monotone v1 v2 bias Hb Hv). lia.
Qed.

Lemma rounded_duration_monotone (pow : float -> float -> float) (b0 : float)
    (i d1 d2 : Z) :
  growth_step pow i = true ->
  rounded_duration pow b0 GROWTH_EXPONENT i d1 ->
  rounded_duration pow b0 GROWTH_EXPONENT (i + 1) d2 ->
  d1 <= d2.
Proof.
  unfold growth_step, growth_power, rounded_duration, raw_duration.
  intros Hs (x1 & r1 & H1 & R1 & ->) (x2 & r2 & H2 & R2 & ->).
  bind_inv H1. bind_inv H1. ok_inv H1.
  bind_inv H2. bind_inv H2. ok_inv H2.
  rewrite E, E1 in Hs. cbn [bind] in Hs. rewrite E0, E2 in Hs.
  apply andb_prop in Hs as [Hp Hl].
  exact (mul_round_monotone b0 x0 x3 r1 r2 Hp Hl R1 R2).
Qed.

Lemma nth_range (n : Z) (j : nat) :
  Z.of_nat j < n -> nth j (range n) 0 = Z.of_nat j.
Proof.
  intros H. unfold range.
  change 0 with (Z.of_nat 0). rewrite map_nth, seq_nth by lia. reflexivity.
Qed.

Lemma Forall2_nth_rel {A B : Type} (P : A -> B -> Prop) (a : A) (b : B) :
  forall l l', Forall2 P l l' ->
  forall j, (j < List.length l)%nat -> P (nth j l a) (nth j l' b).
Proof.
  induction 1 as [|x y l l' Hxy _ IH]; simpl; intros j Hj; [lia|].
  destruct j; [assumption | apply IH; lia].
Qed.

Lemma nth_removelast {A : Type} (d : A) (l : list A) (j : nat) :
  (S j < List.length l)%nat -> nth j (removelast l) d = nth j l d.
Proof.
  revert j; induction l as [|x l IH]; simpl; intros j Hj; [lia|].
  destruct l as [|y l]; [simpl in Hj; lia|].
  destruct j; [reflexivity|]. apply IH. simpl in *; lia.
Qed.

(** Before the last cell the corrected list is the rounded one. *)
Lemma nth_corrected (total_blocks : Z) (raw : list Z) (j : nat) :
  (S j < List.length raw)%nat ->
  nth j (corrected total_blocks raw) 0 = nth j raw 0.
Proof.
  intros Hj.
  assert (Hne : raw <> []) by (destruct raw; [simpl in Hj; lia | discriminate]).
  rewrite <- (nth_removelast 0 (corrected total_blocks raw))
    by (rewrite corrected_length; assumption).
  rewrite removelast_corrected. now apply nth_removelast.
Qed.

Lemma forallb_range (f : Z -> bool) (n i : Z) :
  forallb f (range n) = true -> 0 <= i < n -> f i = true.
Proof.
  intros H Hi. rewrite forallb_forall in H. apply H.
  unfold range. apply in_map_iff. exists (Z.to_nat i). split; [lia|].
  apply in_seq. lia.
Qed.

(** * The claims *)

(** C1. Exact conservation: for every valid request on which
    [generate_schedule] returns a schedule, the sum over all phases of
    [mps * blockDelta] is [TOTAL_TARGET], as an equality of integers. *)
Theorem exact_conservation (pow : float -> float -> float)
    (auction_blocks prebid_blocks : Z) (s : list Phase) :
  valid_request auction_blocks prebid_blocks ->
  generate_schedule pow auction_blocks prebid_blocks = Ok s ->
  total_allocation s = TOTAL_TARGET.
Proof.
  intros _ H. apply generate_schedule_inv in H as (durs & segs & _ & _ & _ & ->).
  rewrite !total_allocation_app, prebid_prefix_allocation.
  unfold total_allocation at 2, remainder_phase, sum; simpl. lia.
Qed.

(** C2, as the code has it. For every valid request on which
    [generate_schedule] returns a schedule, the planner is given the budget
    [auction_blocks - 1] (the prebid blocks are not subtracted), and the
    [blockDelta] of all phases sum to [prebid_blocks], plus the planned
    durations, plus the one remainder block.  The planned durations sum to
    the budget when the durations before the last leave it at least one
    block, and then the total is [auction_blocks + prebid_blocks]. *)
Theorem block_coverage (pow : float -> float -> float)
    (auction_blocks prebid_blocks : Z) (s : list Phase) :
  valid_request auction_blocks prebid_blocks ->
  generate_schedule pow auction_blocks prebid_blocks = Ok s ->
  exists durs,
    calculate_block_durations pow (auction_blocks - 1) NUM_SEGMENTS GROWTH_EXPONENT
    = Ok durs
    /\ total_blocks_of s = prebid_blocks + sum durs + 1
    /\ sum durs = Z.max (auction_blocks - 1) (sum (removelast durs) + 1)
    /\ (sum (removelast durs) < auction_blocks - 1 ->
        total_blocks_of s = auction_blocks + prebid_blocks).
Proof.
  intros [_ Hpb] H.
  apply generate_schedule_inv in H as (durs & segs & Hd & Hm & _ & ->).
  exists durs.
  assert (Htot : total_blocks_of
                   (prebid_prefix prebid_blocks ++ segs
                    ++ [remainder_phase (total_allocation segs)])
                 = prebid_blocks + sum durs + 1).
  { rewrite !total_blocks_of_app, prebid_prefix_blocks by assumption.
    unfold total_blocks_of at 1. rewrite Hm.
    unfold total_blocks_of, sum; simpl. ring. }
  destruct (planner_shape pow _ NUM_SEGMENTS _ _ eq_refl Hd) as (_ & _ & Hsum).
  repeat split; try assumption. intros Hlt. rewrite Htot. lia.
Qed.

(** C4, as the code has it. For every [total_blocks > 0], [num_segments > 0]
    and [growth_factor > 1] on which [calculate_block_durations] returns, it
    returns exactly [num_segments] integers, each at least 1; their sum is
    the larger of [total_blocks] and one more than the sum of the durations
    before the last, so it is [total_blocks] exactly when those leave the
    last segment at least one block. *)
Theorem planner_contract (pow : float -> float -> float)
    (total_blocks n : Z) (growth_factor : float) (ds : list Z) :
  0 < total_blocks -> 0 < n -> (1 <? growth_factor)%float = true ->
  calculate_block_durations pow total_blocks n growth_factor = Ok ds ->
  Z.of_nat (List.length ds) = n
  /\ Forall (fun d => 1 <= d) ds
  /\ sum ds = Z.max total_blocks (sum (removelast ds) + 1)
  /\ (sum ds = total_blocks <-> sum (removelast ds) < total_blocks).
Proof.
  intros _ Hn _ H.
  destruct (planner_shape pow _ _ _ _ Hn H) as (Hlen & Hpos & Hsum).
  repeat split; try assumption; lia.
Qed.


(** C6 (as the code has it): for every valid request, when the C library's
    [pow] gives positive, non-decreasing values of [GROWTH_EXPONENT ** i] on
    the exponents [0 .. NUM_SEGMENTS - 2], the durations produced by
    [calculate_block_durations] are non-decreasing over every segment but the
    last: for each [i] from 1 to [NUM_SEGMENTS - 2],
    [blockDelta[i] >= blockDelta[i - 1]].  The last, corrected segment is
    outside the statement. *)
Theorem monotonic_growth (pow : float -> float -> float) (ab pb : Z) (durs : list Z) :
  valid_request ab pb ->
  nondecreasing_powers pow = true ->
  calculate_block_durations pow (ab - 1) NUM_SEGMENTS GROWTH_EXPONENT = Ok durs ->
  forall i, 1 <= i <= NUM_SEGMENTS - 2 ->
    nth (Z.to_nat i) durs 0 >= nth (Z.to_nat (i - 1)) durs 0.
Proof.
  intros _ Hpow H i Hi.
  apply calculate_block_durations_inv in H as (b0 & raw & Hraw & -> & _).
  pose proof (rounded_durations_length _ _ _ _ _ Hraw) as Hlen.
  pose proof (length_range NUM_SEGMENTS) as Hn. rewrite <- Hlen in Hn.
  unfold NUM_SEGMENTS in *.
  rewrite !nth_corrected by lia.
  pose proof (Forall2_nth_rel _ 0 0 _ _ Hraw (Z.to_nat (i - 1)) ltac:(lia)) as H1.
  pose proof (Forall2_nth_rel _ 0 0 _ _ Hraw (Z.to_nat i) ltac:(lia)) as H2.
  rewrite nth_range in H1, H2 by lia.
  rewrite Z2Nat.id in H1, H2 by lia.
  replace i with (i - 1 + 1) in H2 at 1 by lia.
  apply Z.le_ge.
  apply (rounded_duration_monotone pow b0 (i - 1)); try assumption.
  apply (forallb_range _ (10 - 2)); [exact Hpow | lia].
Qed.

(** C8. Prebid shape: for every valid request with [prebid_blocks > 0] the
    first phase of the returned schedule is the zero-rate phase of
    [prebid_blocks] blocks; with [prebid_blocks = 0] no such phase is
    emitted: the schedule is the [NUM_SEGMENTS] segment phases, one per
    planned duration, followed by the remainder phase. *)
Theorem prebid_shape (pow : float -> float -> float)
    (auction_blocks prebid_blocks : Z) (s : list Phase) :
  valid_request auction_blocks prebid_blocks ->
  generate_schedule pow auction_blocks prebid_blocks = Ok s ->
  (0 < prebid_blocks ->
   exists rest, s = {| mps := 0; blockDelta := prebid_blocks |} :: rest)
  /\ (prebid_blocks = 0 ->
      exists first segs,
        s = first :: segs ++ [remainder_phase (total_allocation (first :: segs))]
        /\ calculate_block_durations pow (auction_blocks - 1)
             NUM_SEGMENTS GROWTH_EXPONENT
           = Ok (map blockDelta (first :: segs))
        /\ Z.of_nat (List.length (first :: segs)) = NUM_SEGMENTS).
Proof.
  intros _ H.
  apply generate_schedule_inv in H as (durs & segs & Hd & Hm & _ & ->).
  split.
  - intros Hpb. unfold prebid_prefix.
    apply Z.ltb_lt in Hpb. rewrite Hpb. simpl. eauto.
  - intros ->. unfold prebid_prefix; simpl. subst durs.
    destruct (planner_shape pow _ NUM_SEGMENTS _ _ eq_refl Hd) as (Hlen & _ & _).
    rewrite length_map in Hlen.
    destruct segs as [|first segs]; [discriminate|].
    exists first, segs. auto.
Qed.


(** C10. For every [auction_blocks >= 2] and [prebid_blocks > 0] the result
    of [generate_schedule] is the zero-rate prebid phase in front of the
    result for the same auction without a prebid period: the segments and
    the remainder are unchanged (and an exception is the same exception). *)
Theorem prebid_only_prepends (pow : float -> float -> float)
    (auction_blocks prebid_blocks : Z) :
  2 <= auction_blocks -> 0 < prebid_blocks ->
  generate_schedule pow auction_blocks prebid_blocks
  = fmap (cons {| mps := 0; blockDelta := prebid_blocks |})
      (generate_schedule pow auction_blocks 0).
Proof.
  intros _ Hpb. unfold generate_schedule.
  apply Z.ltb_lt in Hpb. rewrite Hpb. simpl (0 <? 0).
  destruct (calculate_block_durations pow _ _ _) as [durs|e]; simpl; [|reflexivity].
  set (st0 := {| cumulative_blocks := 0; cumulative_tokens := 0; schedule := [] |}).
  change {| cumulative_blocks := 0; cumulative_tokens := 0;
            schedule := [{| mps := 0; blockDelta := prebid_blocks |}] |}
    with (with_prefix [{| mps := 0; blockDelta := prebid_blocks |}] st0).
  rewrite segment_loop_prefix. unfold fmap.
  destruct (for_each _ durs st0) as [st|e]; reflexivity.
Qed.

(** ** The tool entry point *)

Definition tool_name : string := "generate_supply_schedule".

Definition default_prebid (args : arguments) : Z :=
  match arg_prebid_blocks args with Some pb => pb | None => 0 end.

(** What the entry point guarantees about rejection and about the schedule
    it answers with. *)
Definition validation_contract (pow : float -> float -> float) (name : string)
    (args : arguments) : Prop :=
  (* validation accepts exactly the valid requests *)
  (forall input,
      validate args = Ok input <->
      arg_auction_blocks args = Some (auction_blocks input)
      /\ prebid_blocks input = default_prebid args
      /\ valid_request (auction_blocks input) (prebid_blocks input))
  (* a rejected request is answered with the error, whatever the generator does *)
  /\ (forall e, validate args = Raise e ->
                e = ValidationError /\ call_tool pow name args = Ok (Failure e))
  (* an exception of the generator is answered with the error *)
  /\ (forall input e,
         validate args = Ok input ->
         generate_schedule pow (auction_blocks input) (prebid_blocks input) = Raise e ->
         call_tool pow name args = Ok (Failure e))
  (* a schedule is answered only as the complete result of the generator *)
  /\ (forall out,
         call_tool pow name args = Ok (Success out) ->
         exists input,
           validate args = Ok input
           /\ generate_schedule pow (auction_blocks input) (prebid_blocks input)
              = Ok (out_schedule out)).

Lemma validate_Ok (args : arguments) (input : GenerateScheduleInput) :
  validate args = Ok input <->
  arg_auction_blocks args = Some (auction_blocks input)
  /\ prebid_blocks input = default_prebid args
  /\ valid_request (auction_blocks input) (prebid_blocks input).
Proof.
  unfold validate, default_prebid, valid_request.
  destruct args as [[ab|] pbo]; simpl.
  - destruct (0 <? ab) eqn:Hab;
      [destruct (0 <=? match pbo with Some pb => pb | None => 0 end) eqn:Hpb|].
    + split.
      * intros H; ok_inv H; simpl. repeat split; lia.
      * destruct input as [ab' pb']; simpl. intros (H1 & H2 & _).
        injection H1 as ->. now subst.
    + split; [discriminate|]. destruct input as [ab' pb']; simpl.
      intros (H1 & H2 & H3). subst. lia.
    + split; [discriminate|]. destruct input as [ab' pb']; simpl.
      intros (H1 & H2 & H3). injection H1 as ->. lia.
  - split; [discriminate | intros (H & _); discriminate].
Qed.

Lemma validate_Raise (args : arguments) (e : exn) :
  validate args = Raise e -> e = ValidationError.
Proof.
  unfold validate. destruct (arg_auction_blocks args) as [ab|]; [|congruence].
  destruct (0 <? ab); [|congruence].
  destruct (0 <=? _); congruence.
Qed.

Lemma handle_schedule (pow : float -> float -> float) (args : arguments)
    (out : output) :
  handle pow args = Ok out ->
  exists input,
    validate args = Ok input
    /\ generate_schedule pow (auction_blocks input) (prebid_blocks input)
       = Ok (out_schedule out).
Proof.
  unfold handle; intros H. do 6 bind_inv H.
  apply Ok_inj in H; subst out. simpl. eauto.
Qed.

(** C3, as the code has it. A call of the schedule tool is rejected by
    validation, before any schedule computation, exactly when
    [auction_blocks] is missing or below 1 or [prebid_blocks] is negative:
    every request with [auction_blocks >= 1] and [prebid_blocks >= 0] is
    accepted, whatever [auction_blocks - prebid_blocks] is.  An exception of
    the validation or of the computation is answered with the error payload,
    and a schedule is answered only as the complete result of
    [generate_schedule]. *)
Theorem request_validation (pow : float -> float -> float) (name : string)
    (args : arguments) :
  name = tool_name -> validation_contract pow name args.
Proof.
  intros ->. unfold validation_contract, call_tool, handle.
  change (negb (tool_name =? tool_name)%string) with false. cbv iota.
  split; [intros input; apply validate_Ok|].
  split; [|split].
  - intros e He. split; [now apply validate_Raise in He|]. now rewrite He.
  - intros input e Hv Hg. now rewrite Hv; simpl; rewrite Hg.
  - intros out H.
    destruct (handle_schedule pow args out) as (input & Hv & Hg).
    + unfold handle. destruct (bind (validate args) _) as [o|e]; [|discriminate].
      injection H as <-. reflexivity.
    + eauto.
Qed.

(** * The rest of the module *)

(** ** The advertised tools *)

(** One piece of a formatted string: literal text, or a value put through
    the f-string, a float with its number of decimals when one is asked
    for. *)
Inductive fragment : Type :=
| Text : string -> fragment
| FormatInt : Z -> fragment
| FormatFloat : float -> fragment
| FormatFixed : Z -> float -> fragment.

(** One entry of [properties] in a JSON schema: an integer property with
    its lower bound and, when it has one, its default. *)
Record property_schema : Type :=
  { json_type : string;
    property_description : string;
    minimum : Z;
    default : option Z }.

(** The [inputSchema] of a tool. *)
Record input_schema : Type :=
  { schema_type : string;
    properties : list (string * property_schema);
    required : list string }.

Record Tool : Type :=
  { name : string;
    description : list fragment;
    inputSchema : input_schema }.

(** [list_tools()]: the one tool of the server. *)
Definition list_tools : list Tool :=
  [ {| name := "generate_supply_schedule";
       description :=
         [ Text "Generate a CCA (Continuous Clearing Auction) supply schedule with exponential distribution. ";
           Text "The schedule uses ";
           FormatInt NUM_SEGMENTS;
           Text " segments with block durations growing by ";
           FormatFloat GROWTH_EXPONENT;
           Text "x each segment. ";
           Text "Token distribution follows a cumulative exponential curve (t/T)^1.2 scaled to 70% of supply, ";
           Text "with the final block receiving the remaining ~30%. ";
           Text "Returns an array of {mps, blockDelta} objects. ";
           Text "MPS = milli-basis points (1e7 = 10 million), representing tokens per block." ];
       inputSchema :=
         {| schema_type := "object";
            properties :=
              [ ("auction_blocks"%string,
                 {| json_type := "integer";
                    property_description :=
                      "Total number of blocks for the auction (e.g., 86400 for 2 days on Base with 2s blocks)";
                    minimum := 1;
                    default := None |});
                ("prebid_blocks"%string,
                 {| json_type := "integer";
                    property_description :=
                      "Number of blocks for prebid period with 0 mps (default: 0)";
                    minimum := 0;
                    default := Some 0 |}) ];
            required := ["auction_blocks"%string] |} |} ].

(** The value a request gives for a key, when it gives one. *)
Definition argument (args : arguments) (key : string) : option Z :=
  if (key =? "auction_blocks")%string then arg_auction_blocks args
  else if (key =? "prebid_blocks")%string then arg_prebid_blocks args
  else None.

(** A request with integer values satisfies a schema, as JSON Schema reads
    [required] and [minimum]: every required key is given, and every given
    value is at least the minimum of its property. *)
Definition satisfies (s : input_schema) (args : arguments) : bool :=
  forallb (fun key => match argument args key with Some _ => true | None => false end)
    (required s)
  && forallb (fun kp => match argument args (fst kp) with
                        | Some v => minimum (snd kp) <=? v
                        | None => true
                        end)
       (properties s).

(** The value of a key after the defaults of the schema are filled in. *)
Definition with_default (s : input_schema) (args : arguments) (key : string)
  : option Z :=
  match argument args key with
  | Some v => Some v
  | None =>
      match find (fun kp => (fst kp =? key)%string) (properties s) with
      | Some kp => default (snd kp)
      | None => None
      end
  end.

(** The exceptions of the arithmetic: every exception of the generator is
    one of them. *)
Definition numeric_error (e : exn) : Prop :=
  e = ZeroDivisionError \/ e = OverflowError \/ e = ValueError \/ e = TypeError.

(** The request without its [prebid_blocks]. *)
Definition without_prebid (args : arguments) : arguments :=
  {| arg_auction_blocks := arg_auction_blocks args; arg_prebid_blocks := None |}.

(** The output for a request with [prebid_blocks], from the output for the
    same request without. *)
Definition add_prebid (prebid_blocks : Z) (out : output) : output :=
  {| out_schedule := prebid_prefix prebid_blocks ++ out_schedule out;
     out_auction_blocks := out_auction_blocks out;
     out_prebid_blocks := prebid_blocks;
     total_phases :=
       total_phases out + Z.of_nat (List.length (prebid_prefix prebid_blocks));
     out_summary := out_summary out |}.

(** The block at which segment [k] of a list of phases starts: the blocks
    of the segments before it. *)
Definition start_block (segs : list Phase) (k : nat) : Z :=
  sum (map blockDelta (firstn k segs)).

(** A change of the output, carried to the response. *)
Definition on_success (f : output -> output) (r : response) : response :=
  match r with
  | Success out => Success (f out)
  | Failure e => Failure e
  end.

(** ** Which exceptions the code can raise *)

Lemma Raise_inj {A : Type} (e1 e2 : exn) : @Raise A e1 = Raise e2 -> e1 = e2.
Proof.
  intros H.
  exact (f_equal (fun r => match r with Raise e => e | Ok _ => e1 end) H).
Qed.

Lemma bind_Raise {A B : Type} (r : result A) (k : A -> result B) (e : exn) :
  (x <- r ;; k x) = Raise e ->
  r = Raise e \/ exists a, r = Ok a /\ k a = Raise e.
Proof.
  destruct r as [a|e']; simpl; intros H; [right; eauto|].
  left. apply Raise_inj in H. now subst.
Qed.

Lemma checked_Raise (x : spec_float) (e : exn) :
  PyFloat.checked x = Raise e -> e = OverflowError.
Proof. destruct x; simpl; intros H; try discriminate; now apply Raise_inj in H. Qed.

Lemma of_int_Raise (n : Z) (e : exn) :
  PyFloat.of_int n = Raise e -> e = OverflowError.
Proof. apply checked_Raise. Qed.

Lemma int_truediv_Raise (a b : Z) (e : exn) :
  PyFloat.int_truediv a b = Raise e ->
  (e = ZeroDivisionError /\ b = 0) \/ (e = OverflowError /\ b <> 0).
Proof.
  unfold PyFloat.int_truediv. destruct (Z.eqb_spec b 0) as [->|Hb]; intros H.
  - left. apply Raise_inj in H. now split.
  - right. apply checked_Raise in H. now split.
Qed.

Lemma truediv_Raise (x y : float) (e : exn) :
  PyFloat.truediv x y = Raise e -> e = ZeroDivisionError /\ (y =? 0)%float = true.
Proof.
  unfold PyFloat.truediv. destruct (y =? 0)%float; intros H; [|discriminate].
  apply Raise_inj in H. now split.
Qed.

Lemma round_Raise (x : float) (e : exn) :
  PyFloat.round x = Raise e -> e = ValueError \/ e = OverflowError.
Proof.
  unfold PyFloat.round. destruct (Prim2SF x); intros H; try discriminate;
    apply Raise_inj in H; auto.
Qed.

Lemma pow_Raise (pow : float -> float -> float) (v w : float) (e : exn) :
  PyFloat.pow pow v w = Raise e -> numeric_error e.
Proof.
  unfold PyFloat.pow, numeric_error.
  repeat match goal with
         | |- context [if ?c then _ else _] => destruct c
         end;
    intros H; try discriminate; apply Raise_inj in H; auto.
Qed.

Lemma for_each_Raise {A S : Type} (body : S -> A -> result S) (l : list A) (e : exn) :
  forall s, for_each body l s = Raise e ->
            exists s' a, In a l /\ body s' a = Raise e.
Proof.
  induction l as [|a l IH]; simpl; intros s H; [discriminate|].
  apply bind_Raise in H as [H | (s' & _ & H)].
  - exists s, a. auto.
  - destruct (IH _ H) as (s'' & a' & Hin & Hb). exists s'', a'. auto.
Qed.

Lemma get_last_Raise (l : list Z) (e : exn) :
  get_last l = Raise e -> e = IndexError /\ l = [].
Proof. destruct l; simpl; intros H; [|discriminate]. apply Raise_inj in H. auto. Qed.

Lemma set_last_Raise (l : list Z) (v : Z) (e : exn) :
  set_last l v = Raise e -> e = IndexError /\ l = [].
Proof. destruct l; simpl; intros H; [|discriminate]. apply Raise_inj in H. auto. Qed.

Lemma set_last_Ok (l l' : list Z) (v : Z) :
  set_last l v = Ok l' -> l' <> [].
Proof.
  destruct l; simpl; intros H; [discriminate|]. apply Ok_inj in H. subst l'.
  intros E. apply (f_equal (@List.length Z)) in E. rewrite length_app in E.
  simpl in E. lia.
Qed.

Lemma last_mps_Raise (s : list Phase) (e : exn) :
  last_mps s = Raise e -> e = IndexError /\ s = [].
Proof. destruct s; simpl; intros H; [|discriminate]. apply Raise_inj in H. auto. Qed.

Ltac numeric := unfold numeric_error; auto.

Lemma duration_body_Raise (pow : float -> float -> float) (b0 g : float)
    (ds : list Z) (i : Z) (e : exn) :
  duration_body pow b0 g ds i = Raise e -> numeric_error e.
Proof.
  unfold duration_body, raw_duration. intros H.
  apply bind_Raise in H as [H | (x & Hx & H)].
  - apply bind_Raise in H as [H | (fi & _ & H)].
    + apply of_int_Raise in H. subst. numeric.
    + apply bind_Raise in H as [H | (p & _ & H)]; [|discriminate].
      now apply pow_Raise in H.
  - apply bind_Raise in H as [H | (r & _ & H)]; [|discriminate].
    apply round_Raise in H as [-> | ->]; numeric.
Qed.

(** The planner raises an arithmetic exception, or [IndexError] on its
    [durations[-1]] when there is no segment. *)
Lemma calculate_block_durations_Raise (pow : float -> float -> float)
    (total_blocks n : Z) (g : float) (e : exn) :
  calculate_block_durations pow total_blocks n g = Raise e ->
  numeric_error e \/ (e = IndexError /\ n <= 0).
Proof.
  unfold calculate_block_durations. intros H.
  apply bind_Raise in H as [H | (fn & _ & H)].
  { apply of_int_Raise in H. subst. left; numeric. }
  apply bind_Raise in H as [H | (gn & _ & H)].
  { left. now apply pow_Raise in H. }
  apply bind_Raise in H as [H | (gs & _ & H)].
  { apply truediv_Raise in H as [-> _]. left; numeric. }
  apply bind_Raise in H as [H | (tb & _ & H)].
  { apply of_int_Raise in H. subst. left; numeric. }
  apply bind_Raise in H as [H | (b0 & _ & H)].
  { apply truediv_Raise in H as [-> _]. left; numeric. }
  apply bind_Raise in H as [H | (ds & Hds & H)].
  { apply for_each_Raise in H as (s' & a & _ & H). left.
    now apply duration_body_Raise in H. }
  apply duration_loop in Hds as (raw & -> & Hraw). simpl in H.
  pose proof (rounded_durations_length _ _ _ _ _ Hraw) as Hlen.
  pose proof (length_range n) as Hn. rewrite <- Hlen in Hn.
  assert (Hempty : raw = [] -> n <= 0) by (intros ->; simpl in Hn; lia).
  destruct (negb (sum raw =? total_blocks)); [|discriminate].
  right.
  apply bind_Raise in H as [H | (d & _ & H)].
  { apply get_last_Raise in H as [-> Hr]. auto. }
  apply bind_Raise in H as [H | (ds' & Hds' & H)].
  { apply set_last_Raise in H as [-> Hr]. auto. }
  apply set_last_Ok in Hds'.
  apply bind_Raise in H as [H | (d' & _ & H)].
  { apply get_last_Raise in H as [_ Hr]. contradiction. }
  apply set_last_Raise in H as [_ Hr]. contradiction.
Qed.

Lemma segment_tokens_Raise (pow : float -> float -> float) (T c c' : Z) (e : exn) :
  segment_tokens pow T c c' = Raise e -> numeric_error e.
Proof.
  unfold segment_tokens. intros H.
  apply bind_Raise in H as [H | (xs & _ & H)].
  { apply int_truediv_Raise in H as [[-> _] | [-> _]]; numeric. }
  apply bind_Raise in H as [H | (ps & _ & H)].
  { now apply pow_Raise in H. }
  apply bind_Raise in H as [H | (xe & _ & H)].
  { apply int_truediv_Raise in H as [[-> _] | [-> _]]; numeric. }
  apply bind_Raise in H as [H | (pe & _ & H)].
  { now apply pow_Raise in H. }
  apply bind_Raise in H as [H | (t & _ & H)]; [|discriminate].
  apply of_int_Raise in H. subst. numeric.
Qed.

Lemma segment_rate_Raise (tokens : float) (d : Z) (e : exn) :
  segment_rate tokens d = Raise e -> numeric_error e.
Proof.
  unfold segment_rate. intros H.
  apply bind_Raise in H as [H | (fd & _ & H)].
  { apply of_int_Raise in H. subst. numeric. }
  apply bind_Raise in H as [H | (q & _ & H)].
  { apply truediv_Raise in H as [-> _]. numeric. }
  apply bind_Raise in H as [H | (r & _ & H)]; [|discriminate].
  apply round_Raise in H as [-> | ->]; numeric.
Qed.

Lemma segment_body_Raise (pow : float -> float -> float) (T : Z) (st : loop_state)
    (d : Z) (e : exn) :
  segment_body pow T st d = Raise e -> numeric_error e.
Proof.
  unfold segment_body. intros H.
  apply bind_Raise in H as [H | (t & _ & H)].
  { now apply segment_tokens_Raise in H. }
  apply bind_Raise in H as [H | (r & _ & H)]; [|discriminate].
  now apply segment_rate_Raise in H.
Qed.

Lemma generate_schedule_Raise (pow : float -> float -> float) (ab pb : Z) (e : exn) :
  generate_schedule pow ab pb = Raise e -> numeric_error e.
Proof.
  unfold generate_schedule. intros H.
  apply bind_Raise in H as [H | (durs & _ & H)].
  { apply calculate_block_durations_Raise in H as [H | [_ H]]; [assumption|].
    unfold NUM_SEGMENTS in H. lia. }
  apply bind_Raise in H as [H | (st & _ & H)]; [|discriminate].
  apply for_each_Raise in H as (s' & a & _ & H).
  now apply segment_body_Raise in H.
Qed.

(** ** What a returned schedule looks like, for every request *)

Lemma last_mps_remainder (front : list Phase) (p : Phase) :
  last_mps (front ++ [p]) = Ok (mps p).
Proof.
  destruct front as [|q front]; [reflexivity|].
  simpl. f_equal. f_equal.
  change (last (front ++ [p]) q = p). apply last_last.
Qed.

Lemma returned_allocation (pow : float -> float -> float) (ab pb : Z) (s : list Phase) :
  generate_schedule pow ab pb = Ok s -> total_allocation s = TOTAL_TARGET.
Proof.
  intros H. apply generate_schedule_inv in H as (durs & segs & _ & _ & _ & ->).
  rewrite !total_allocation_app, prebid_prefix_allocation.
  unfold total_allocation at 2, remainder_phase, sum; simpl. lia.
Qed.

Lemma returned_length (pow : float -> float -> float) (ab pb : Z) (s : list Phase) :
  generate_schedule pow ab pb = Ok s ->
  Z.of_nat (List.length s) = NUM_SEGMENTS + 1 + (if 0 <? pb then 1 else 0).
Proof.
  intros H. apply generate_schedule_inv in H as (durs & segs & Hd & Hm & _ & ->).
  apply planner_shape in Hd as (Hlen & _); [|reflexivity].
  rewrite <- Hm, length_map in Hlen.
  rewrite !length_app. unfold prebid_prefix.
  destruct (0 <? pb); cbn [List.length]; lia.
Qed.

(** Every step of the [try] block, on a successful call. *)
Lemma handle_inv (pow : float -> float -> float) (args : arguments) (out : output) :
  handle pow args = Ok out ->
  exists input final shown,
    validate args = Ok input
    /\ generate_schedule pow (auction_blocks input) (prebid_blocks input)
       = Ok (out_schedule out)
    /\ last_mps (out_schedule out) = Ok final
    /\ out = {| out_schedule := out_schedule out;
                out_auction_blocks := auction_blocks input;
                out_prebid_blocks := prebid_blocks input;
                total_phases := Z.of_nat (List.length (out_schedule out));
                out_summary :=
                  {| total_mps := total_allocation (out_schedule out);
                     target_mps := TOTAL_TARGET;
                     final_block_mps := final;
                     final_block_percentage := shown;
                     num_segments := NUM_SEGMENTS;
                     growth_exponent := GROWTH_EXPONENT |} |}.
Proof.
  unfold handle; intros H. do 6 bind_inv H.
  apply Ok_inj in H; subst out. cbn [out_schedule].
  exists x, x1, x4. auto.
Qed.

Lemma call_tool_Success (pow : float -> float -> float) (name : string)
    (args : arguments) (out : output) :
  call_tool pow name args = Ok (Success out) ->
  name = tool_name /\ handle pow args = Ok out.
Proof.
  unfold call_tool.
  destruct (String.eqb_spec name "generate_supply_schedule") as [->|Hne]; simpl;
    [|discriminate].
  destruct (handle pow args) as [o|e]; intros H; apply Ok_inj in H;
    [|discriminate].
  injection H as ->. auto.
Qed.

Lemma call_tool_Failure (pow : float -> float -> float) (name : string)
    (args : arguments) (e : exn) :
  call_tool pow name args = Ok (Failure e) ->
  name = tool_name /\ handle pow args = Raise e.
Proof.
  unfold call_tool.
  destruct (String.eqb_spec name "generate_supply_schedule") as [->|Hne]; simpl;
    [|discriminate].
  destruct (handle pow args) as [o|e']; intros H; apply Ok_inj in H;
    [discriminate|].
  injection H as ->. auto.
Qed.

(** X1. The summary of a successful response always reports the target as
    allocated: [total_mps] is computed from the schedule and is
    [TOTAL_TARGET], the same number as [target_mps]; [final_block_mps] is the
    rate of the last phase, which is the remainder phase: [TOTAL_TARGET]
    minus what the segments allocate. *)
Theorem summary_totals (pow : float -> float -> float) (name : string)
    (args : arguments) (out : output) :
  call_tool pow name args = Ok (Success out) ->
  total_mps (out_summary out) = total_allocation (out_schedule out)
  /\ total_mps (out_summary out) = TOTAL_TARGET
  /\ target_mps (out_summary out) = TOTAL_TARGET
  /\ last_mps (out_schedule out) = Ok (final_block_mps (out_summary out))
  /\ exists segs,
       out_schedule out
       = prebid_prefix (out_prebid_blocks out) ++ segs
         ++ [remainder_phase (total_allocation segs)]
       /\ final_block_mps (out_summary out) = TOTAL_TARGET - total_allocation segs.
Proof.
  intros H. apply call_tool_Success in H as [_ H].
  apply handle_inv in H as (input & final & shown & _ & Hg & Hl & Hout).
  pose proof (returned_allocation _ _ _ _ Hg) as Ht.
  pose proof Hg as Hs.
  apply generate_schedule_inv in Hs as (durs & segs & _ & _ & _ & Hs).
  rewrite Hout; cbn [out_summary total_mps target_mps final_block_mps
                     out_schedule out_prebid_blocks].
  repeat split; try assumption.
  exists segs. split; [assumption|].
  rewrite Hs, app_assoc, last_mps_remainder in Hl.
  apply Ok_inj in Hl. now subst final.
Qed.

(** X2. A successful response echoes the validated request, with a missing
    [prebid_blocks] shown as 0, and counts the phases of its schedule:
    [NUM_SEGMENTS] segments and the final block, and one more when there is
    a prebid period. *)
Theorem response_shape (pow : float -> float -> float) (name : string)
    (args : arguments) (out : output) :
  call_tool pow name args = Ok (Success out) ->
  arg_auction_blocks args = Some (out_auction_blocks out)
  /\ out_prebid_blocks out = default_prebid args
  /\ total_phases out = Z.of_nat (List.length (out_schedule out))
  /\ total_phases out
     = NUM_SEGMENTS + 1 + (if 0 <? out_prebid_blocks out then 1 else 0)
  /\ num_segments (out_summary out) = NUM_SEGMENTS
  /\ growth_exponent (out_summary out) = GROWTH_EXPONENT.
Proof.
  intros H. apply call_tool_Success in H as [_ H].
  apply handle_inv in H as (input & final & shown & Hv & Hg & _ & Hout).
  apply validate_Ok in Hv as (Hab & Hpb & _).
  apply returned_length in Hg.
  rewrite Hout; cbn [out_auction_blocks out_prebid_blocks total_phases out_schedule
                     out_summary num_segments growth_exponent].
  repeat split; assumption.
Qed.


(** X4. The advertised input schema and the input model agree on integer
    arguments: a request satisfies [required] and the [minimum]s of the
    schema exactly when validation accepts it, and the validated input is
    then the request with the defaults of the schema filled in. *)
Theorem schema_agrees_with_validation (tool : Tool) (args : arguments) :
  In tool list_tools ->
  (satisfies (inputSchema tool) args = true <-> exists input, validate args = Ok input)
  /\ (forall input,
         validate args = Ok input ->
         with_default (inputSchema tool) args "auction_blocks"
         = Some (auction_blocks input)
         /\ with_default (inputSchema tool) args "prebid_blocks"
            = Some (prebid_blocks input)).
Proof.
  intros [<-|[]]. destruct args as [abo pbo].
  unfold satisfies, with_default, validate; simpl.
  split.
  - destruct abo as [ab|]; simpl;
      [|split; [discriminate | intros [input Hi]; discriminate]].
    replace (1 <=? ab) with (0 <? ab)
      by (destruct (Z.ltb_spec 0 ab), (Z.leb_spec 1 ab); lia).
    destruct (0 <? ab); simpl;
      [|split; [discriminate | intros [input Hi]; discriminate]].
    destruct pbo as [pb|]; simpl; [|split; eauto].
    destruct (0 <=? pb); simpl; split; eauto; try discriminate.
    intros [input Hi]; discriminate.
  - intros input Hi. destruct abo as [ab|]; [|discriminate].
    destruct (0 <? ab); [|discriminate].
    destruct pbo as [pb|]; simpl in *.
    + destruct (0 <=? pb); [|discriminate]. apply Ok_inj in Hi. now subst.
    + apply Ok_inj in Hi. now subst.
Qed.

(** ** Requests that cannot be served *)

Lemma planned_first (pow : float -> float -> float) (T : Z) (durs : list Z) :
  calculate_block_durations pow T NUM_SEGMENTS GROWTH_EXPONENT = Ok durs ->
  exists d rest, durs = d :: rest.
Proof.
  intros H. apply planner_shape in H as (Hlen & _); [|reflexivity].
  destruct durs as [|d rest]; [simpl in Hlen; discriminate | eauto].
Qed.

Lemma single_block_generator (pow : float -> float -> float) (pb : Z) :
  generate_schedule pow 1 pb = Raise ZeroDivisionError
  \/ exists e,
       calculate_block_durations pow 0 NUM_SEGMENTS GROWTH_EXPONENT = Raise e
       /\ generate_schedule pow 1 pb = Raise e.
Proof.
  unfold generate_schedule. change (1 - 1) with 0.
  destruct (calculate_block_durations pow 0 NUM_SEGMENTS GROWTH_EXPONENT)
    as [durs|e] eqn:Hd.
  - left. destruct (planned_first _ _ _ Hd) as (d & rest & ->). reflexivity.
  - right. exists e. split; reflexivity.
Qed.

(** X5. An auction of one block is never served: validation accepts
    [auction_blocks = 1], but the budget of the segments is then 0 blocks and
    the first position on the curve divides by it.  [generate_schedule]
    raises [ZeroDivisionError] (or the exception of the planner, if that
    raised first), and the tool answers with the error payload. *)
Theorem single_block_auction (pow : float -> float -> float) (pb : Z)
    (prebid : option Z) :
  (generate_schedule pow 1 pb = Raise ZeroDivisionError
   \/ exists e,
        calculate_block_durations pow 0 NUM_SEGMENTS GROWTH_EXPONENT = Raise e
        /\ generate_schedule pow 1 pb = Raise e)
  /\ exists e,
       call_tool pow tool_name
         {| arg_auction_blocks := Some 1; arg_prebid_blocks := prebid |}
       = Ok (Failure e).
Proof.
  split; [apply single_block_generator|].
  unfold call_tool. change (negb (tool_name =? tool_name)%string) with false.
  cbv iota. unfold handle.
  destruct (validate _) as [input|e] eqn:Hv; [|simpl; eauto].
  pose proof Hv as Hab. apply validate_Ok in Hab as (Hab & _).
  cbn [arg_auction_blocks] in Hab. injection Hab as Hab.
  cbn [bind]. rewrite <- Hab.
  destruct (single_block_generator pow (prebid_blocks input)) as [H | (e & _ & H)];
    rewrite H; simpl; eauto.
Qed.

(** ** The exceptions that can surface *)

Lemma round2_Raise (x : float) (e : exn) :
  round2 x = Raise e -> numeric_error e.
Proof.
  unfold round2. destruct (Prim2SF x); try discriminate.
  destruct (_ =? 0); [discriminate|]. intros H.
  apply int_truediv_Raise in H as [[-> _] | [-> _]]; numeric.
Qed.

Lemma returned_nonempty (pow : float -> float -> float) (ab pb : Z) (s : list Phase) :
  generate_schedule pow ab pb = Ok s -> s <> [].
Proof.
  intros H E. apply returned_length in H. rewrite E in H. simpl in H.
  unfold NUM_SEGMENTS in H. destruct (0 <? pb); lia.
Qed.

Lemma handle_Raise (pow : float -> float -> float) (args : arguments) (e : exn) :
  handle pow args = Raise e ->
  (e = ValidationError /\ validate args = Raise ValidationError)
  \/ (numeric_error e /\ exists input, validate args = Ok input).
Proof.
  unfold handle. intros H.
  apply bind_Raise in H as [H | (input & Hv & H)].
  { left. pose proof (validate_Raise _ _ H). subst. auto. }
  right. split; [|eauto].
  apply bind_Raise in H as [H | (s & Hs & H)].
  { now apply generate_schedule_Raise in H. }
  apply bind_Raise in H as [H | (final & _ & H)].
  { apply last_mps_Raise in H as [_ H]. now apply returned_nonempty in Hs. }
  apply bind_Raise in H as [H | (ratio & _ & H)].
  { apply int_truediv_Raise in H as [[-> _] | [-> _]]; numeric. }
  apply bind_Raise in H as [H | (hundred & _ & H)].
  { apply of_int_Raise in H. subst. numeric. }
  apply bind_Raise in H as [H | (shown & _ & H)]; [|discriminate].
  now apply round2_Raise in H.
Qed.

(** X6. The exceptions of the planner and of the generator are those of the
    arithmetic.  [calculate_block_durations] can raise [IndexError] on its
    [durations[-1]] only when it is asked for no segment at all;
    [generate_schedule], which asks for [NUM_SEGMENTS], never does, for any
    integers it is given. *)
Theorem generator_exceptions (pow : float -> float -> float) :
  (forall total_blocks n growth_factor e,
      calculate_block_durations pow total_blocks n growth_factor = Raise e ->
      numeric_error e \/ (e = IndexError /\ n <= 0))
  /\ (forall auction_blocks prebid_blocks e,
         generate_schedule pow auction_blocks prebid_blocks = Raise e ->
         numeric_error e).
Proof.
  split.
  - intros T n g e. apply calculate_block_durations_Raise.
  - intros ab pb e. apply generate_schedule_Raise.
Qed.

(** X7. An error payload tells the two kinds of failure apart: it carries a
    validation error exactly when validation rejected the request, and
    otherwise an exception of the arithmetic, on a request that validation
    accepted.  The indexings [durations[-1]] and [schedule[-1]] never
    fail. *)
Theorem failure_classification (pow : float -> float -> float) (name : string)
    (args : arguments) (e : exn) :
  call_tool pow name args = Ok (Failure e) ->
  (e = ValidationError /\ validate args = Raise ValidationError)
  \/ (numeric_error e /\ exists input, validate args = Ok input).
Proof.
  intros H. apply call_tool_Failure in H as [_ H]. now apply handle_Raise in H.
Qed.

(** X8. With no segment to plan the geometric sum is 0 and the initial duration
    divides by it: [calculate_block_durations] never returns an empty plan,
    it raises [ZeroDivisionError] (after [OverflowError], if the budget is
    too large for a float). *)
Theorem no_segments (pow : float -> float -> float) (total_blocks : Z) :
  calculate_block_durations pow total_blocks 0 GROWTH_EXPONENT
  = (tb <- PyFloat.of_int total_blocks ;; Raise ZeroDivisionError).
Proof.
  unfold calculate_block_durations.
  change (PyFloat.of_int 0) with (Ok 0%float). cbn [bind].
  change (PyFloat.pow pow GROWTH_EXPONENT 0) with (Ok 1%float). cbn [bind].
  change (PyFloat.truediv (1 - 1) (GROWTH_EXPONENT - 1)) with (Ok 0%float).
  cbn [bind].
  destruct (PyFloat.of_int total_blocks) as [tb|e]; [|reflexivity].
  cbn [bind]. unfold PyFloat.truediv.
  change (0 =? 0)%float with true. reflexivity.
Qed.

(** ** The prebid period and the response *)

Lemma generate_schedule_prefix (pow : float -> float -> float) (ab pb : Z) :
  generate_schedule pow ab pb
  = fmap (app (prebid_prefix pb)) (generate_schedule pow ab 0).
Proof.
  unfold generate_schedule. simpl (0 <? 0).
  destruct (calculate_block_durations pow _ _ _) as [durs|e]; simpl; [|reflexivity].
  set (st0 := {| cumulative_blocks := 0; cumulative_tokens := 0; schedule := [] |}).
  fold (prebid_prefix pb).
  replace {| cumulative_blocks := 0; cumulative_tokens := 0;
             schedule := prebid_prefix pb |}
    with (with_prefix (prebid_prefix pb) st0)
    by (unfold with_prefix, st0; simpl; now rewrite app_nil_r).
  rewrite segment_loop_prefix. unfold fmap.
  destruct (for_each _ durs st0) as [st|e]; simpl; [|reflexivity].
  now rewrite app_assoc.
Qed.

Lemma last_mps_prefix (pre s : list Phase) :
  s <> [] -> last_mps (pre ++ s) = last_mps s.
Proof.
  intros Hs. destruct (exists_last Hs) as (front & p & ->).
  now rewrite app_assoc, !last_mps_remainder.
Qed.

Lemma handle_prebid (pow : float -> float -> float) (args : arguments) :
  0 <= default_prebid args ->
  handle pow args
  = fmap (add_prebid (default_prebid args)) (handle pow (without_prebid args)).
Proof.
  intros Hpb. unfold handle, validate, without_prebid, default_prebid in *.
  cbn [arg_auction_blocks arg_prebid_blocks].
  destruct (arg_auction_blocks args) as [ab|]; [|reflexivity].
  destruct (0 <? ab); [|reflexivity].
  set (pb := match arg_prebid_blocks args with Some pb => pb | None => 0 end) in *.
  apply Z.leb_le in Hpb. rewrite Hpb. cbv beta iota.
  change (0 <=? 0) with true. cbv beta iota.
  cbn [bind auction_blocks prebid_blocks].
  rewrite (generate_schedule_prefix pow ab pb).
  destruct (generate_schedule pow ab 0) as [s0|e] eqn:Hg; [|reflexivity].
  cbn [fmap bind].
  pose proof (returned_nonempty _ _ _ _ Hg) as Hne.
  rewrite (last_mps_prefix _ _ Hne).
  destruct (last_mps s0) as [final|e]; [|reflexivity]. cbn [bind].
  destruct (PyFloat.int_truediv final TOTAL_TARGET) as [ratio|e]; [|reflexivity].
  cbn [bind].
  destruct (PyFloat.of_int 100) as [hundred|e]; [|reflexivity]. cbn [bind].
  destruct (round2 _) as [shown|e]; [|reflexivity]. cbn [bind].
  unfold fmap, add_prebid.
  cbn [bind out_schedule out_auction_blocks out_prebid_blocks total_phases
       out_summary].
  rewrite length_app, Nat2Z.inj_add.
  change (sum (map (fun item => mps item * blockDelta item) (prebid_prefix pb ++ s0)))
    with (total_allocation (prebid_prefix pb ++ s0)).
  rewrite total_allocation_app, prebid_prefix_allocation, Z.add_0_l.
  rewrite (Z.add_comm (Z.of_nat (List.length (prebid_prefix pb)))).
  reflexivity.
Qed.

(** X9. A prebid period changes nothing but the front of the response: the
    answer to a request with [prebid_blocks >= 0] is the answer to the same
    request without it, with the prebid phase (if any) put in front of the
    schedule, the phase count raised accordingly and [prebid_blocks] echoed;
    the summary is the same, and so is an error. *)
Theorem prebid_leaves_summary (pow : float -> float -> float) (name : string)
    (args : arguments) :
  0 <= default_prebid args ->
  call_tool pow name args
  = fmap (on_success (add_prebid (default_prebid args)))
      (call_tool pow name (without_prebid args)).
Proof.
  intros Hpb. unfold call_tool.
  destruct (negb (name =? "generate_supply_schedule")%string); [reflexivity|].
  rewrite (handle_prebid pow args Hpb).
  destruct (handle pow (without_prebid args)); reflexivity.
Qed.

(** ** The positions of the segments on the curve *)

Lemma start_block_cons (p : Phase) (segs : list Phase) (k : nat) :
  start_block (p :: segs) (S k) = blockDelta p + start_block segs k.
Proof. reflexivity. Qed.

Lemma segment_phases_positions (pow : float -> float -> float) (T : Z)
    (segs : list Phase) :
  forall c, segment_phases pow T c segs ->
  forall k p, nth_error segs k = Some p ->
  exists tokens,
    segment_tokens pow T (c + start_block segs k) (c + start_block segs (S k))
    = Ok tokens
    /\ segment_rate tokens (blockDelta p) = Ok (mps p).
Proof.
  induction segs as [|q segs IH]; intros c H k p Hk.
  - destruct k; discriminate.
  - inversion H as [|c' q' rest tokens Ht Hr Hrest]; subst.
    destruct k as [|k].
    + injection Hk as <-. exists tokens.
      rewrite start_block_cons. unfold start_block at 1 2. simpl.
      rewrite !Z.add_0_r. auto.
    + simpl in Hk. destruct (IH _ Hrest k p Hk) as (tokens' & Ht' & Hr').
      exists tokens'. rewrite !start_block_cons, !Z.add_assoc. auto.
Qed.

(** X10. The segments tile the budget from block 0: segment [k] is sampled on
    the curve between the sum of the durations before it and that sum plus
    its own duration, counted from the first segment whatever the prebid
    period, and its rate is the one [segment_rate] gives for the tokens
    between the two positions. *)
Theorem segments_tile (pow : float -> float -> float) (ab pb : Z) (s : list Phase) :
  generate_schedule pow ab pb = Ok s ->
  exists segs,
    s = prebid_prefix pb ++ segs ++ [remainder_phase (total_allocation segs)]
    /\ calculate_block_durations pow (ab - 1) NUM_SEGMENTS GROWTH_EXPONENT
       = Ok (map blockDelta segs)
    /\ start_block segs 0 = 0
    /\ start_block segs (List.length segs) = total_blocks_of segs
    /\ forall k p,
         nth_error segs k = Some p ->
         start_block segs (S k) = start_block segs k + blockDelta p
         /\ exists tokens,
              segment_tokens pow (ab - 1) (start_block segs k) (start_block segs (S k))
              = Ok tokens
              /\ segment_rate tokens (blockDelta p) = Ok (mps p).
Proof.
  intros H. apply generate_schedule_inv in H as (durs & segs & Hd & Hm & Hp & ->).
  exists segs. subst durs. repeat split; try assumption.
  - unfold start_block, total_blocks_of. now rewrite firstn_all.
  - unfold start_block. clear Hp Hd. revert k H.
    induction segs as [|q segs IH]; intros [|k] Hk; try discriminate.
    + injection Hk as <-. simpl. lia.
    + simpl in Hk. specialize (IH k Hk).
      change (firstn (S (S k)) (q :: segs)) with (q :: firstn (S k) segs).
      change (firstn (S k) (q :: segs)) with (q :: firstn k segs).
      simpl map. simpl sum. simpl in IH. lia.
  - destruct (segment_phases_positions pow _ _ 0 Hp k p H) as (tokens & Ht & Hr).
    exists tokens. now rewrite !Z.add_0_l in Ht.
Qed.

(** ** The test script, [test_logic.py] *)

Module TestLogic.

(** The script has its own copies of the constants and of the two
    functions. *)
Definition TOTAL_TARGET : Z := 10000000.

Definition NUM_SEGMENTS : Z := 10.

Definition GROWTH_EXPONENT : float := 0x1.3333333333333p+0%float.

(** What ends a test early: a failed [assert], with its message, or an
    exception of the code under test. *)
Inductive failure : Type :=
| AssertionError : list fragment -> failure
| Error : exn -> failure.

Inductive outcome (A : Type) : Type :=
| Done : A -> outcome A
| Fail : failure -> outcome A.

Arguments Done {A} _.
Arguments Fail {A} _.

Definition and_then {A B : Type} (o : outcome A) (k : A -> outcome B) : outcome B :=
  match o with
  | Done a => k a
  | Fail f => Fail f
  end.

Notation "x <~ c ;; k" := (and_then c (fun x => k))
  (at level 61, c at next level, right associativity).

(** A step of the code under test inside a test. *)
Definition run {A : Type} (r : result A) : outcome A :=
  match r with
  | Ok a => Done a
  | Raise e => Fail (Error e)
  end.

(** [assert condition, message]. *)
Definition assert (condition : bool) (message : list fragment) : outcome unit :=
  if condition then Done tt else Fail (AssertionError message).

(** The same loop with a body that may fail an assertion. *)
Fixpoint for_all {A : Type} (body : A -> outcome unit) (l : list A) : outcome unit :=
  match l with
  | [] => Done tt
  | a :: l' => _ <~ body a ;; for_all body l'
  end.

(** [range(a, b)]. *)
Definition range_from (a b : Z) : list Z := map (Z.add a) (range (b - a)).

(** [schedule[i]] for [i >= 0]. *)
Definition item (schedule : list Phase) (i : Z) : result Phase :=
  match nth_error schedule (Z.to_nat i) with
  | Some p => Ok p
  | None => Raise IndexError
  end.

Section Logic.

Variable libm_pow : float -> float -> float.

Local Notation "v ** w" := (PyFloat.pow libm_pow v w) (at level 30).

Definition calculate_block_durations
    (total_blocks num_segments : Z) (growth_factor : float) : result (list Z) :=
  n <- PyFloat.of_int num_segments ;;
  gn <- growth_factor ** n ;;
  geometric_sum <- PyFloat.truediv (gn - 1)%float (growth_factor - 1)%float ;;
  tb <- PyFloat.of_int total_blocks ;;
  b0 <- PyFloat.truediv tb geometric_sum ;;
  durations <-
    for_each
      (fun durations i =>
         fi <- PyFloat.of_int i ;;
         g <- growth_factor ** fi ;;
         let duration := (b0 * g)%float in
         r <- PyFloat.round duration ;;
         let duration_int := Z.max 1 r in
         Ok (durations ++ [duration_int]))
      (range num_segments) [] ;;
  let actual_total := sum durations in
  if negb (actual_total =? total_blocks) then
    d <- get_last durations ;;
    durations <- set_last durations (d + (total_blocks - actual_total)) ;;
    d <- get_last durations ;;
    set_last durations (Z.max 1 d)
  else Ok durations.

Definition generate_schedule (auction_blocks prebid_blocks : Z)
  : result (list Phase) :=
  let schedule0 :=
    if 0 <? prebid_blocks
    then [{| mps := 0; blockDelta := prebid_blocks |}]
    else [] in
  let blocks_for_segments := auction_blocks - 1 in
  block_durations <-
    calculate_block_durations blocks_for_segments NUM_SEGMENTS GROWTH_EXPONENT ;;
  st <-
    for_each
      (fun st block_delta =>
         let start_block := cumulative_blocks st in
         let end_block := cumulative_blocks st + block_delta in
         xs <- PyFloat.int_truediv start_block blocks_for_segments ;;
         start_pct <- xs ** GROWTH_EXPONENT ;;
         xe <- PyFloat.int_truediv end_block blocks_for_segments ;;
         end_pct <- xe ** GROWTH_EXPONENT ;;
         target <- PyFloat.of_int TOTAL_TARGET ;;
         let start_tokens := (start_pct * 0x1.6666666666666p-1 * target)%float in
         let end_tokens := (end_pct * 0x1.6666666666666p-1 * target)%float in
         let segment_tokens := (end_tokens - start_tokens)%float in
         fd <- PyFloat.of_int block_delta ;;
         q <- PyFloat.truediv segment_tokens fd ;;
         r <- PyFloat.round q ;;
         let rate := if (0 <? segment_tokens)%float then Z.max 1 r else r in
         Ok {| cumulative_blocks := cumulative_blocks st + block_delta;
               cumulative_tokens := cumulative_tokens st + rate * block_delta;
               schedule := schedule st ++ [{| mps := rate; blockDelta := block_delta |}] |})
      block_durations
      {| cumulative_blocks := 0; cumulative_tokens := 0; schedule := schedule0 |} ;;
  let final_tokens := TOTAL_TARGET - cumulative_tokens st in
  Ok (schedule st ++ [{| mps := final_tokens; blockDelta := 1 |}]).

(** [sum(item["mps"] * item["blockDelta"] for item in schedule)]. *)
Definition total_mps_of (schedule : list Phase) : Z :=
  sum (map (fun item => mps item * blockDelta item) schedule).

(** [(schedule[-1]["mps"] / TOTAL_TARGET) * 100]. *)
Definition final_percentage_of (schedule : list Phase) : result float :=
  final <- last_mps schedule ;;
  ratio <- PyFloat.int_truediv final TOTAL_TARGET ;;
  hundred <- PyFloat.of_int 100 ;;
  Ok (ratio * hundred)%float.

(** [25 <= final_percentage <= 35]. *)
Definition in_range (final_percentage : float) : bool :=
  ((25 <=? final_percentage) && (final_percentage <=? 35))%float.

(** The ratio printed for segments [i] and [i + 1]. *)
Definition growth_ratio (schedule : list Phase) (i : Z) : result float :=
  prev <- item schedule (i - 1) ;;
  curr <- item schedule i ;;
  if 0 <? blockDelta prev
  then PyFloat.int_truediv (blockDelta curr) (blockDelta prev)
  else PyFloat.of_int 0.

Definition total_message (total_mps : Z) : list fragment :=
  [Text "Total MPS mismatch: "; FormatInt total_mps; Text " != ";
   FormatInt TOTAL_TARGET].

Definition final_message (final_percentage : float) : list fragment :=
  [Text "Final block should be ~30%, got "; FormatFixed 2 final_percentage;
   Text "%"].

(** What the prints evaluate is evaluated, in their order; the printing
    itself is left out. *)
Definition test_basic_schedule : outcome unit :=
  schedule <~ run (generate_schedule 86400 0) ;;
  _ <~ run (item schedule 0) ;;
  _ <~ run (last_mps schedule) ;;
  let total_mps := total_mps_of schedule in
  final_percentage <~ run (final_percentage_of schedule) ;;
  _ <~ for_all (fun i => _ <~ run (growth_ratio schedule i) ;; Done tt)
         (range_from 1 NUM_SEGMENTS) ;;
  _ <~ assert (total_mps =? TOTAL_TARGET) (total_message total_mps) ;;
  assert (in_range final_percentage) (final_message final_percentage).

Definition test_prebid_schedule : outcome unit :=
  schedule <~ run (generate_schedule 86400 43200) ;;
  first <~ run (item schedule 0) ;;
  _ <~ run (item schedule 1) ;;
  _ <~ run (last_mps schedule) ;;
  _ <~ assert (mps first =? 0) [Text "Prebid phase should have 0 mps"] ;;
  _ <~ assert (blockDelta first =? 43200)
         [Text "Prebid phase should have correct blockDelta"] ;;
  let total_mps := total_mps_of schedule in
  final_percentage <~ run (final_percentage_of schedule) ;;
  _ <~ assert (total_mps =? TOTAL_TARGET) (total_message total_mps) ;;
  assert (in_range final_percentage) (final_message final_percentage).

Definition total_message_for (description : string) : list fragment :=
  [Text "Total MPS mismatch for "; Text description].

Definition final_message_for (description : string) : list fragment :=
  [Text "Final block percentage out of range for "; Text description].

Definition test_cases : list (Z * string) :=
  [ (14400, "1 day on mainnet (12s blocks)"%string);
    (43200, "1 day on Base (2s blocks)"%string);
    (86400, "2 days on Base (2s blocks)"%string);
    (604800, "1 week on Base (2s blocks)"%string) ].

Definition test_different_durations : outcome unit :=
  for_all
    (fun case =>
       let blocks := fst case in
       let description := snd case in
       schedule <~ run (generate_schedule blocks 0) ;;
       let total_mps := total_mps_of schedule in
       final_percentage <~ run (final_percentage_of schedule) ;;
       _ <~ assert (total_mps =? TOTAL_TARGET) (total_message_for description) ;;
       assert (in_range final_percentage) (final_message_for description))
    test_cases.

(** The script run as a program. *)
Definition main : outcome unit :=
  _ <~ test_basic_schedule ;;
  _ <~ test_prebid_schedule ;;
  test_different_durations.

End Logic.

(** The messages of the assertions on the final percentage. *)
Definition percentage_message (message : list fragment) : Prop :=
  (exists x, message = final_message x)
  \/ (exists description, message = final_message_for description).

(** The failures a test can end on whatever the C library computes: an
    assertion on the final percentage, or an exception of the arithmetic. *)
Definition expected_failure (f : failure) : Prop :=
  match f with
  | AssertionError message => percentage_message message
  | Error e => numeric_error e
  end.

(** A test ends well or on one of them. *)
Definition percentage_or_arithmetic {A : Type} (o : outcome A) : Prop :=
  match o with
  | Done _ => True
  | Fail f => expected_failure f
  end.

End TestLogic.

(** ** The test script *)

Ltac step_bind :=
  match goal with
  | |- bind ?c _ = bind ?c _ => destruct c; cbn [bind]; [|reflexivity]
  | |- bind ?c _ = bind (bind ?c _) _ => destruct c; cbn [bind]; [|reflexivity]
  end.

Lemma tested_planner (pow : float -> float -> float) (total_blocks n : Z) (g : float) :
  TestLogic.calculate_block_durations pow total_blocks n g
  = calculate_block_durations pow total_blocks n g.
Proof.
  unfold TestLogic.calculate_block_durations, calculate_block_durations.
  do 5 step_bind.
  match goal with
  | |- bind (for_each ?f _ _) _ = bind (for_each ?h _ _) _ =>
      rewrite (for_each_ext f h)
  end; [reflexivity|].
  intros ds i. unfold duration_body, raw_duration.
  do 2 step_bind. reflexivity.
Qed.

Lemma tested_generator (pow : float -> float -> float) (ab pb : Z) :
  TestLogic.generate_schedule pow ab pb = generate_schedule pow ab pb.
Proof.
  unfold TestLogic.generate_schedule, generate_schedule.
  change TestLogic.NUM_SEGMENTS with NUM_SEGMENTS.
  change TestLogic.GROWTH_EXPONENT with GROWTH_EXPONENT.
  assert (HT : TestLogic.TOTAL_TARGET = TOTAL_TARGET)
    by (now rewrite TOTAL_TARGET_value).
  rewrite HT, tested_planner. cbv zeta. step_bind.
  match goal with
  | |- bind (for_each ?f _ _) _ = bind (for_each ?h _ _) _ =>
      rewrite (for_each_ext f h)
  end; [reflexivity|].
  intros st d. unfold segment_body, segment_tokens, segment_rate, FRONT_SHARE.
  cbv zeta.
  do 8 step_bind. reflexivity.
Qed.

(** X11. The script tests the code of the server: its copies of the constants,
    of [calculate_block_durations] and of [generate_schedule] are the
    server's, on every input. *)
Theorem tested_copies_agree (pow : float -> float -> float) :
  TestLogic.TOTAL_TARGET = TOTAL_TARGET
  /\ TestLogic.NUM_SEGMENTS = NUM_SEGMENTS
  /\ TestLogic.GROWTH_EXPONENT = GROWTH_EXPONENT
  /\ (forall total_blocks num_segments growth_factor,
         TestLogic.calculate_block_durations pow total_blocks num_segments growth_factor
         = calculate_block_durations pow total_blocks num_segments growth_factor)
  /\ (forall auction_blocks prebid_blocks,
         TestLogic.generate_schedule pow auction_blocks prebid_blocks
         = generate_schedule pow auction_blocks prebid_blocks).
Proof.
  split; [now rewrite TOTAL_TARGET_value|].
  split; [reflexivity|]. split; [reflexivity|].
  split; [intros; apply tested_planner | intros; apply tested_generator].
Qed.

(** *** What the tests can end on *)

Lemma run_Done {A : Type} (r : result A) (a : A) :
  TestLogic.run r = TestLogic.Done a -> r = Ok a.
Proof. destruct r; simpl; intros H; [now injection H as -> | discriminate]. Qed.

Lemma expected_and_then {A B : Type} (o : TestLogic.outcome A)
    (k : A -> TestLogic.outcome B) :
  TestLogic.percentage_or_arithmetic o ->
  (forall a, o = TestLogic.Done a -> TestLogic.percentage_or_arithmetic (k a)) ->
  TestLogic.percentage_or_arithmetic (TestLogic.and_then o k).
Proof. destruct o; simpl; auto. Qed.

Lemma expected_run {A : Type} (r : result A) :
  (forall e, r = Raise e -> numeric_error e) ->
  TestLogic.percentage_or_arithmetic (TestLogic.run r).
Proof. destruct r; simpl; auto. Qed.

Lemma expected_assert (condition : bool) (message : list fragment) :
  TestLogic.percentage_message message ->
  TestLogic.percentage_or_arithmetic (TestLogic.assert condition message).
Proof. destruct condition; simpl; auto. Qed.

Lemma expected_for_all {A : Type} (body : A -> TestLogic.outcome unit) (l : list A) :
  (forall a, In a l -> TestLogic.percentage_or_arithmetic (body a)) ->
  TestLogic.percentage_or_arithmetic (TestLogic.for_all body l).
Proof.
  induction l as [|a l IH]; intros H; simpl; [exact I|].
  apply expected_and_then; [apply H; now left|].
  intros _ _. apply IH. intros b Hb. apply H. now right.
Qed.

Lemma item_Raise (s : list Phase) (i : Z) (e : exn) :
  TestLogic.item s i = Raise e -> 0 <= i < Z.of_nat (List.length s) -> False.
Proof.
  unfold TestLogic.item. intros H Hi.
  destruct (nth_error s (Z.to_nat i)) eqn:E; [discriminate|].
  apply nth_error_None in E. lia.
Qed.

Lemma final_percentage_Raise (s : list Phase) (e : exn) :
  TestLogic.final_percentage_of s = Raise e -> s <> [] -> numeric_error e.
Proof.
  unfold TestLogic.final_percentage_of. intros H Hs.
  apply bind_Raise in H as [H | (final & _ & H)].
  { apply last_mps_Raise in H as [_ H]. contradiction. }
  apply bind_Raise in H as [H | (ratio & _ & H)].
  { apply int_truediv_Raise in H as [[-> _] | [-> _]]; numeric. }
  apply bind_Raise in H as [H | (hundred & _ & H)]; [|discriminate].
  apply of_int_Raise in H. subst. numeric.
Qed.

Lemma growth_ratio_Raise (s : list Phase) (i : Z) (e : exn) :
  TestLogic.growth_ratio s i = Raise e ->
  1 <= i < Z.of_nat (List.length s) -> numeric_error e.
Proof.
  unfold TestLogic.growth_ratio. intros H Hi.
  apply bind_Raise in H as [H | (prev & _ & H)].
  { exfalso. apply (item_Raise _ _ _ H). lia. }
  apply bind_Raise in H as [H | (curr & _ & H)].
  { exfalso. apply (item_Raise _ _ _ H). lia. }
  destruct (0 <? blockDelta prev).
  - apply int_truediv_Raise in H as [[-> _] | [-> _]]; numeric.
  - apply of_int_Raise in H. subst. numeric.
Qed.

Lemma in_range_from (a b i : Z) : In i (TestLogic.range_from a b) -> a <= i < b.
Proof.
  unfold TestLogic.range_from, range. rewrite map_map. intros H.
  apply in_map_iff in H as (k & <- & Hk). apply in_seq in Hk. lia.
Qed.

Lemma total_assertion_holds (pow : float -> float -> float) (ab pb : Z)
    (s : list Phase) :
  generate_schedule pow ab pb = Ok s ->
  (TestLogic.total_mps_of s =? TestLogic.TOTAL_TARGET) = true.
Proof.
  intros H. apply returned_allocation in H. apply Z.eqb_eq.
  unfold TestLogic.total_mps_of. fold (total_allocation s). rewrite H.
  now rewrite TOTAL_TARGET_value.
Qed.

Lemma expected_basic (pow : float -> float -> float) :
  TestLogic.percentage_or_arithmetic (TestLogic.test_basic_schedule pow).
Proof.
  unfold TestLogic.test_basic_schedule. rewrite tested_generator.
  apply expected_and_then;
    [apply expected_run; intros e; apply generate_schedule_Raise|].
  intros s Hs. apply run_Done in Hs.
  pose proof (returned_length _ _ _ _ Hs) as Hlen. simpl in Hlen.
  pose proof (returned_nonempty _ _ _ _ Hs) as Hne.
  apply expected_and_then.
  { apply expected_run. intros e He. exfalso. apply (item_Raise _ _ _ He).
    unfold NUM_SEGMENTS in Hlen. lia. }
  intros _ _. apply expected_and_then.
  { apply expected_run. intros e He. apply last_mps_Raise in He as [_ He].
    contradiction. }
  intros _ _. apply expected_and_then.
  { apply expected_run. intros e He. now apply final_percentage_Raise in He. }
  intros x _. apply expected_and_then.
  { apply expected_for_all. intros i Hi. apply in_range_from in Hi.
    apply expected_and_then; [|intros; exact I].
    apply expected_run. intros e He. apply (growth_ratio_Raise _ _ _ He).
    unfold TestLogic.NUM_SEGMENTS in Hi. unfold NUM_SEGMENTS in Hlen. lia. }
  intros _ _. rewrite (total_assertion_holds _ _ _ _ Hs).
  cbn [TestLogic.assert TestLogic.and_then].
  apply expected_assert. left. now exists x.
Qed.

Lemma expected_prebid (pow : float -> float -> float) :
  TestLogic.percentage_or_arithmetic (TestLogic.test_prebid_schedule pow).
Proof.
  unfold TestLogic.test_prebid_schedule. rewrite tested_generator.
  apply expected_and_then;
    [apply expected_run; intros e; apply generate_schedule_Raise|].
  intros s Hs. apply run_Done in Hs.
  pose proof (returned_nonempty _ _ _ _ Hs) as Hne.
  pose proof (total_assertion_holds _ _ _ _ Hs) as Ht.
  pose proof Hs as Hshape.
  apply generate_schedule_inv in Hshape as (durs & segs & Hd & Hm & _ & Hshape).
  apply planner_shape in Hd as (Hlen & _); [|reflexivity].
  rewrite <- Hm, length_map in Hlen.
  destruct segs as [|p segs]; [simpl in Hlen; discriminate|].
  change (prebid_prefix 43200) with [{| mps := 0; blockDelta := 43200 |}] in Hshape.
  assert (H0 : TestLogic.item s 0 = Ok {| mps := 0; blockDelta := 43200 |})
    by (rewrite Hshape; reflexivity).
  assert (H1 : TestLogic.item s 1 = Ok p) by (rewrite Hshape; reflexivity).
  rewrite H0. cbn [TestLogic.run TestLogic.and_then].
  rewrite H1. cbn [TestLogic.run TestLogic.and_then].
  apply expected_and_then.
  { apply expected_run. intros e He. apply last_mps_Raise in He as [_ He].
    contradiction. }
  intros _ _. cbn [mps blockDelta].
  change (0 =? 0) with true. change (43200 =? 43200) with true.
  cbn [TestLogic.assert TestLogic.and_then].
  apply expected_and_then.
  { apply expected_run. intros e He. now apply final_percentage_Raise in He. }
  intros x _. rewrite Ht. cbn [TestLogic.assert TestLogic.and_then].
  apply expected_assert. left. now exists x.
Qed.

Lemma expected_durations (pow : float -> float -> float) :
  TestLogic.percentage_or_arithmetic (TestLogic.test_different_durations pow).
Proof.
  unfold TestLogic.test_different_durations.
  apply expected_for_all. intros [blocks description] _. cbv zeta.
  cbn [fst snd]. rewrite tested_generator.
  apply expected_and_then;
    [apply expected_run; intros e; apply generate_schedule_Raise|].
  intros s Hs. apply run_Done in Hs.
  pose proof (returned_nonempty _ _ _ _ Hs) as Hne.
  apply expected_and_then.
  { apply expected_run. intros e He. now apply final_percentage_Raise in He. }
  intros x _. rewrite (total_assertion_holds _ _ _ _ Hs).
  cbn [TestLogic.assert TestLogic.and_then].
  apply expected_assert. right. now exists description.
Qed.

(** X12. Whatever the C library computes, the script can only end well, on an
    assertion about the final percentage, or on an exception of the
    arithmetic: its assertions on the total and on the prebid phase, and its
    indexings, never fail. *)
Theorem tests_fail_only_on_percentage (pow : float -> float -> float) :
  TestLogic.percentage_or_arithmetic (TestLogic.test_basic_schedule pow)
  /\ TestLogic.percentage_or_arithmetic (TestLogic.test_prebid_schedule pow)
  /\ TestLogic.percentage_or_arithmetic (TestLogic.test_different_durations pow)
  /\ TestLogic.percentage_or_arithmetic (TestLogic.main pow).
Proof.
  pose proof (expected_basic pow) as H1.
  pose proof (expected_prebid pow) as H2.
  pose proof (expected_durations pow) as H3.
  repeat split; try assumption.
  unfold TestLogic.main.
  apply expected_and_then; [assumption | intros _ _].
  apply expected_and_then; [assumption | intros _ _; assumption].
Qed.

(** * Concrete runs, with the reference [pow] *)

(** [generate_schedule(86400)]: two days of two-second blocks. *)
Definition schedule_86400 : list Phase :=
  [ {| mps := 42; blockDelta := 3328 |};
    {| mps := 55; blockDelta := 3994 |};
    {| mps := 63; blockDelta := 4793 |};
    {| mps := 68; blockDelta := 5751 |};
    {| mps := 73; blockDelta := 6902 |};
    {| mps := 78; blockDelta := 8282 |};
    {| mps := 82; blockDelta := 9938 |};
    {| mps := 87; blockDelta := 11926 |};
    {| mps := 91; blockDelta := 14311 |};
    {| mps := 95; blockDelta := 17174 |};
    {| mps := 3011376; blockDelta := 1 |} ].

(** [generate_schedule(86400, 43200)]. *)
Definition schedule_86400_prebid : list Phase :=
  {| mps := 0; blockDelta := 43200 |} :: schedule_86400.

(** [generate_schedule(5)]: ten one-block segments and a negative remainder. *)
Definition schedule_5 : list Phase :=
  [ {| mps := 1326252; blockDelta := 1 |};
    {| mps := 1720675; blockDelta := 1 |};
    {| mps := 1909532; blockDelta := 1 |};
    {| mps := 2043541; blockDelta := 1 |};
    {| mps := 2149346; blockDelta := 1 |};
    {| mps := 2237608; blockDelta := 1 |};
    {| mps := 2313776; blockDelta := 1 |};
    {| mps := 2381047; blockDelta := 1 |};
    {| mps := 2441468; blockDelta := 1 |};
    {| mps := 2496433; blockDelta := 1 |};
    {| mps := -11019678; blockDelta := 1 |} ].

Definition request (auction_blocks prebid_blocks : Z) : arguments :=
  {| arg_auction_blocks := Some auction_blocks;
     arg_prebid_blocks := Some prebid_blocks |}.

Lemma exact_conservation_witness :
  valid_request 86400 0
  /\ generate_schedule Libm.pow 86400 0 = Ok schedule_86400
  /\ total_allocation schedule_86400 = TOTAL_TARGET.
Proof.
  assert (Hrun : generate_schedule Libm.pow 86400 0 = Ok schedule_86400)
    by (vm_compute; reflexivity).
  assert (Hvalid : valid_request 86400 0) by (unfold valid_request; lia).
  split; [exact Hvalid | split; [exact Hrun|]].
  exact (exact_conservation Libm.pow 86400 0 schedule_86400 Hvalid Hrun).
Defined.

(** C2 fails as stated: with a prebid period the phases cover
    [auction_blocks + prebid_blocks] blocks, not [auction_blocks], and the
    planner is given [auction_blocks - 1] blocks, not
    [auction_blocks - prebid_blocks - 1]. *)
Lemma block_coverage_counterexample :
  valid_request 86400 43200
  /\ generate_schedule Libm.pow 86400 43200 = Ok schedule_86400_prebid
  /\ total_blocks_of schedule_86400_prebid = 86400 + 43200
  /\ total_blocks_of schedule_86400_prebid <> 86400
  /\ sum (map blockDelta (removelast schedule_86400)) = 86400 - 1.
Proof.
  split; [unfold valid_request; lia|].
  split; [vm_compute; reflexivity|].
  split; [vm_compute; reflexivity|].
  split; [vm_compute; discriminate | vm_compute; reflexivity].
Qed.

Lemma block_coverage_witness :
  valid_request 86400 43200
  /\ generate_schedule Libm.pow 86400 43200 = Ok schedule_86400_prebid
  /\ exists durs,
       calculate_block_durations Libm.pow (86400 - 1) NUM_SEGMENTS GROWTH_EXPONENT
       = Ok durs
       /\ total_blocks_of schedule_86400_prebid = 43200 + sum durs + 1
       /\ sum durs = Z.max (86400 - 1) (sum (removelast durs) + 1)
       /\ (sum (removelast durs) < 86400 - 1 ->
           total_blocks_of schedule_86400_prebid = 86400 + 43200).
Proof.
  assert (Hrun : generate_schedule Libm.pow 86400 43200 = Ok schedule_86400_prebid)
    by (vm_compute; reflexivity).
  assert (Hvalid : valid_request 86400 43200) by (unfold valid_request; lia).
  split; [exact Hvalid | split; [exact Hrun|]].
  exact (block_coverage Libm.pow 86400 43200 schedule_86400_prebid Hvalid Hrun).
Defined.

(** C4 fails as stated: with fewer blocks than segments every segment still
    takes one block. *)
Lemma planner_contract_counterexample :
  0 < 4 /\ 0 < 10 /\ (1 <? GROWTH_EXPONENT)%float = true
  /\ calculate_block_durations Libm.pow 4 10 GROWTH_EXPONENT
     = Ok [1; 1; 1; 1; 1; 1; 1; 1; 1; 1]
  /\ sum [1; 1; 1; 1; 1; 1; 1; 1; 1; 1] <> 4.
Proof.
  repeat split; try (vm_compute; congruence).
Qed.

Lemma planner_contract_witness :
  0 < 86399 /\ 0 < 10 /\ (1 <? GROWTH_EXPONENT)%float = true
  /\ calculate_block_durations Libm.pow 86399 10 GROWTH_EXPONENT
     = Ok (map blockDelta (removelast schedule_86400))
  /\ Z.of_nat (List.length (map blockDelta (removelast schedule_86400))) = 10
  /\ Forall (fun d => 1 <= d) (map blockDelta (removelast schedule_86400))
  /\ sum (map blockDelta (removelast schedule_86400))
     = Z.max 86399 (sum (removelast (map blockDelta (removelast schedule_86400))) + 1)
  /\ (sum (map blockDelta (removelast schedule_86400)) = 86399
      <-> sum (removelast (map blockDelta (removelast schedule_86400))) < 86399).
Proof.
  assert (Hrun : calculate_block_durations Libm.pow 86399 10 GROWTH_EXPONENT
                 = Ok (map blockDelta (removelast schedule_86400)))
    by (vm_compute; reflexivity).
  assert (Hg : (1 <? GROWTH_EXPONENT)%float = true) by reflexivity.
  split; [lia | split; [lia | split; [exact Hg | split; [exact Hrun|]]]].
  exact (planner_contract Libm.pow 86399 10 GROWTH_EXPONENT _ eq_refl eq_refl Hg Hrun).
Defined.



Lemma prebid_shape_witness :
  valid_request 86400 43200
  /\ generate_schedule Libm.pow 86400 43200 = Ok schedule_86400_prebid
  /\ (0 < 43200 ->
      exists rest,
        schedule_86400_prebid = {| mps := 0; blockDelta := 43200 |} :: rest)
  /\ (43200 = 0 ->
      exists first segs,
        schedule_86400_prebid
        = first :: segs ++ [remainder_phase (total_allocation (first :: segs))]
        /\ calculate_block_durations Libm.pow (86400 - 1) NUM_SEGMENTS GROWTH_EXPONENT
           = Ok (map blockDelta (first :: segs))
        /\ Z.of_nat (List.length (first :: segs)) = NUM_SEGMENTS).
Proof.
  assert (Hrun : generate_schedule Libm.pow 86400 43200 = Ok schedule_86400_prebid)
    by (vm_compute; reflexivity).
  assert (Hvalid : valid_request 86400 43200) by (unfold valid_request; lia).
  split; [exact Hvalid | split; [exact Hrun|]].
  exact (prebid_shape Libm.pow 86400 43200 schedule_86400_prebid Hvalid Hrun).
Defined.


Lemma prebid_only_prepends_witness :
  2 <= 86400 /\ 0 < 43200
  /\ generate_schedule Libm.pow 86400 43200
     = fmap (cons {| mps := 0; blockDelta := 43200 |})
         (generate_schedule Libm.pow 86400 0).
Proof.
  assert (H1 : 2 <= 86400) by lia.
  assert (H2 : 0 < 43200) by lia.
  split; [exact H1 | split; [exact H2|]].
  exact (prebid_only_prepends Libm.pow 86400 43200 H1 H2).
Defined.

(** C3 fails as stated: a one-block auction passes validation and the
    computation divides by zero; an auction shorter than its prebid period,
    with too few blocks for the segments, is answered with a schedule. *)
Lemma request_validation_counterexample :
  (validate (request 1 0) = Ok {| auction_blocks := 1; prebid_blocks := 0 |}
   /\ generate_schedule Libm.pow 1 0 = Raise ZeroDivisionError
   /\ call_tool Libm.pow tool_name (request 1 0) = Ok (Failure ZeroDivisionError))
  /\ (5 - 10 < NUM_SEGMENTS + 1
      /\ exists out,
           call_tool Libm.pow tool_name (request 5 10) = Ok (Success out)
           /\ out_schedule out = {| mps := 0; blockDelta := 10 |} :: schedule_5).
Proof.
  split; [repeat split; vm_compute; reflexivity|].
  split; [reflexivity|].
  eexists; split; [vm_compute; reflexivity | reflexivity].
Qed.

Lemma request_validation_witness :
  tool_name = tool_name
  /\ validation_contract Libm.pow tool_name (request 0 0).
Proof.
  split; [reflexivity|].
  exact (request_validation Libm.pow tool_name (request 0 0) eq_refl).
Defined.

(** C6 fails as stated: for a twelve-block auction the residual correction
    takes the last segment below the one before it. *)
Lemma monotonic_growth_counterexample :
  valid_request 12 0
  /\ calculate_block_durations Libm.pow (12 - 1) NUM_SEGMENTS GROWTH_EXPONENT
     = Ok [1; 1; 1; 1; 1; 1; 1; 2; 2; 1]
  /\ ~ (nth 9 [1; 1; 1; 1; 1; 1; 1; 2; 2; 1] 0 >= nth 8 [1; 1; 1; 1; 1; 1; 1; 2; 2; 1] 0).
Proof.
  split; [unfold valid_request; lia|].
  split; [vm_compute; reflexivity | simpl; lia].
Qed.

Lemma monotonic_growth_witness :
  valid_request 12 0
  /\ nondecreasing_powers Libm.pow = true
  /\ exists durs,
       calculate_block_durations Libm.pow (12 - 1) NUM_SEGMENTS GROWTH_EXPONENT = Ok durs
       /\ forall i, 1 <= i <= NUM_SEGMENTS - 2 ->
            nth (Z.to_nat i) durs 0 >= nth (Z.to_nat (i - 1)) durs 0.
Proof.
  assert (Hv : valid_request 12 0) by (unfold valid_request; lia).
  assert (Hp : nondecreasing_powers Libm.pow = true) by (vm_compute; reflexivity).
  split; [exact Hv|]. split; [exact Hp|].
  eexists. split; [vm_compute; reflexivity|].
  refine (monotonic_growth Libm.pow 12 0 _ Hv Hp _).
  vm_compute; reflexivity.
Defined.

(** The test script passes with the reference [pow]. *)
Lemma tests_pass_reference : TestLogic.main Libm.pow = TestLogic.Done tt.
Proof. vm_compute. reflexivity. Qed.

Lemma summary_totals_witness :
  exists out,
    call_tool Libm.pow tool_name (request 86400 43200) = Ok (Success out)
    /\ total_mps (out_summary out) = total_allocation (out_schedule out)
    /\ total_mps (out_summary out) = TOTAL_TARGET
    /\ target_mps (out_summary out) = TOTAL_TARGET
    /\ last_mps (out_schedule out) = Ok (final_block_mps (out_summary out))
    /\ exists segs,
         out_schedule out
         = prebid_prefix (out_prebid_blocks out) ++ segs
           ++ [remainder_phase (total_allocation segs)]
         /\ final_block_mps (out_summary out) = TOTAL_TARGET - total_allocation segs.
Proof.
  assert (Hrun : exists out,
             call_tool Libm.pow tool_name (request 86400 43200) = Ok (Success out))
    by (eexists; vm_compute; reflexivity).
  destruct Hrun as [out Hrun]. exists out. split; [exact Hrun|].
  exact (summary_totals Libm.pow tool_name (request 86400 43200) out Hrun).
Defined.

Lemma response_shape_witness :
  exists out,
    call_tool Libm.pow tool_name
      {| arg_auction_blocks := Some 14400; arg_prebid_blocks := None |}
    = Ok (Success out)
    /\ out_auction_blocks out = 14400
    /\ out_prebid_blocks out = 0
    /\ total_phases out = NUM_SEGMENTS + 1.
Proof.
  set (args := {| arg_auction_blocks := Some 14400; arg_prebid_blocks := None |}).
  assert (Hrun : exists out, call_tool Libm.pow tool_name args = Ok (Success out))
    by (eexists; vm_compute; reflexivity).
  destruct Hrun as [out Hrun]. exists out. split; [exact Hrun|].
  destruct (response_shape Libm.pow tool_name args out Hrun)
    as (Hab & Hpb & _ & Hn & _).
  cbn in Hab, Hpb. injection Hab as Hab. rewrite Hpb in Hn.
  repeat split; [now symmetry | exact Hpb | exact Hn].
Defined.

Lemma failure_classification_witness :
  call_tool Libm.pow tool_name (request 1 0) = Ok (Failure ZeroDivisionError)
  /\ ((ZeroDivisionError = ValidationError
       /\ validate (request 1 0) = Raise ValidationError)
      \/ (numeric_error ZeroDivisionError
          /\ exists input, validate (request 1 0) = Ok input)).
Proof.
  assert (Hrun : call_tool Libm.pow tool_name (request 1 0)
                 = Ok (Failure ZeroDivisionError))
    by (vm_compute; reflexivity).
  split; [exact Hrun|].
  exact (failure_classification Libm.pow tool_name (request 1 0) ZeroDivisionError Hrun).
Defined.

Lemma schema_agrees_with_validation_witness :
  exists tool,
    In tool list_tools
    /\ satisfies (inputSchema tool) (request 86400 0) = true
    /\ satisfies (inputSchema tool) (request 0 0) = false
    /\ validate (request 0 0) = Raise ValidationError.
Proof.
  eexists. split; [left; reflexivity|].
  split; [|split; reflexivity].
  apply (proj1 (schema_agrees_with_validation _ (request 86400 0)
                  (or_introl eq_refl))).
  eexists. reflexivity.
Defined.

Lemma prebid_leaves_summary_witness :
  0 <= default_prebid (request 86400 43200)
  /\ call_tool Libm.pow tool_name (request 86400 43200)
     = fmap (on_success (add_prebid (default_prebid (request 86400 43200))))
         (call_tool Libm.pow tool_name (without_prebid (request 86400 43200))).
Proof.
  assert (Hpb : 0 <= default_prebid (request 86400 43200))
    by (unfold default_prebid, request; simpl; lia).
  split; [exact Hpb|].
  exact (prebid_leaves_summary Libm.pow tool_name (request 86400 43200) Hpb).
Defined.

Lemma segments_tile_witness :
  generate_schedule Libm.pow 86400 43200 = Ok schedule_86400_prebid
  /\ exists segs,
       schedule_86400_prebid
       = prebid_prefix 43200 ++ segs ++ [remainder_phase (total_allocation segs)]
       /\ calculate_block_durations Libm.pow (86400 - 1) NUM_SEGMENTS GROWTH_EXPONENT
          = Ok (map blockDelta segs)
       /\ start_block segs 0 = 0
       /\ start_block segs (List.length segs) = total_blocks_of segs
       /\ forall k p,
            nth_error segs k = Some p ->
            start_block segs (S k) = start_block segs k + blockDelta p
            /\ exists tokens,
                 segment_tokens Libm.pow (86400 - 1)
                   (start_block segs k) (start_block segs (S k))
                 = Ok tokens
                 /\ segment_rate tokens (blockDelta p) = Ok (mps p).
Proof.
  assert (Hrun : generate_schedule Libm.pow 86400 43200 = Ok schedule_86400_prebid)
    by (vm_compute; reflexivity).
  split; [exact Hrun|].
  exact (segments_tile Libm.pow 86400 43200 schedule_86400_prebid Hrun).
Defined.
